(** * CombineNode: the node API of CombineJS (src/index.js)

    A shallow embedding of the class [CombineNode] and the proofs of its
    specified properties.

    Modelling choices.
    - Nodes and arrays are JavaScript objects that are shared by
      reference: a node can be a mixin of several nodes, and of itself;
      [setChilds] stores the array it is given, [getChilds] and
      [getMixines] hand out the array the node holds, and [addChild] and
      [addMixin] push in place.  The embedding therefore keeps a store
      ([heap]) of node records and of arrays, addressed by references
      ([ref], [aref]); every method takes the receiver [this] as a
      reference and is a computation in a state-and-exception monad [M]
      over the store.
    - [_props], the namespace objects in it and [_directives] are plain
      objects ([{}]) used as maps, so they inherit from
      [Object.prototype].  A read [o[k]] that finds no own property goes
      on to the prototype; a call [o.hasOwnProperty(k)] first reads the
      member [hasOwnProperty], which an own property of that name
      shadows; an assignment [o["__proto__"] = v] runs the setter of
      [Object.prototype], which installs an object [v] as the prototype
      of [o] and ignores a primitive [v], and creates no own property.
      Own properties of a namespace object are an association list in
      creation order ([JsObj.obj]), enumerated in the order of the
      language (array indices first, ascending, then the other keys in
      creation order).
    - Property values are strings, or [undefined]; directive instances
      are held as primitive handles.  These are the values a caller
      stores; what a read can find besides them (a namespace object, a
      member of [Object.prototype]) is a [jsval].
    - Namespace objects are held by value inside the node record: no
      method shares one between two nodes, and what a caller does to an
      object that a getter handed out is not modelled.
    - [String.prototype.toLowerCase], [Case.kebab] (npm package [case])
      and the members of [Object.prototype] are not part of the
      repository; the development is parametric in them ([Host]).  An
      instance for ASCII text is given for evaluation. *)

From Stdlib Require Import Ascii.
From stdpp Require Import base option list gmap strings sorting.

(** ** JavaScript values held by properties *)

Inductive value : Type :=
  | Undefined
  | Str (s : string).

#[global] Instance value_eq_dec : EqDecision value.
Proof. solve_decision. Defined.

(** [ToString] as a template literal applies it: [`${v}`]. *)
Definition to_string (v : value) : string :=
  match v with
  | Undefined => "undefined"
  | Str s => s
  end.

(** The double quote character, as a one-character string. *)
Definition dquote : string := String "034"%char EmptyString.

(** [Array.prototype.join] on an array of strings. *)
Definition join (sep : string) (l : list string) : string := String.concat sep l.

(** ** Own properties of a plain object *)

Module JsObj.

(** Own properties, in creation order; keys are kept distinct by [set]. *)
Definition obj : Type := list (string * value).

Definition empty : obj := [].

Fixpoint get (o : obj) (k : string) : option value :=
  match o with
  | [] => None
  | (k', v) :: o' => if decide (k' = k) then Some v else get o' k
  end.

(** [o[k]] for an own property [k] of [o], as in a loop over
    [Object.keys(o)]. *)
Definition read (o : obj) (k : string) : value := default Undefined (get o k).

(** What the builtin [Object.prototype.hasOwnProperty] answers for [o]
    and [k]. *)
Definition hasOwnProperty (o : obj) (k : string) : bool := bool_decide (is_Some (get o k)).

(** An own property is written: an existing one keeps its place, a new one
    is created last. *)
Fixpoint set (o : obj) (k : string) (v : value) : obj :=
  match o with
  | [] => [(k, v)]
  | (k', v') :: o' => if decide (k' = k) then (k, v) :: o' else (k', v') :: set o' k v
  end.

(** [o[k] = v] for a primitive [v], on an object whose prototype is
    [Object.prototype]: the key [__proto__] reaches the setter of the
    prototype, which ignores a primitive; every other key becomes an own
    property. *)
Definition write (o : obj) (k : string) (v : value) : obj :=
  if decide (k = "__proto__") then o else set o k v.

Definition digit_of (c : ascii) : option N :=
  let n := N_of_ascii c in
  if ((48 <=? n) && (n <=? 57))%N then Some (n - 48)%N else None.

Fixpoint parse_digits (acc : N) (s : string) : option N :=
  match s with
  | EmptyString => Some acc
  | String c s' =>
      match digit_of c with
      | Some d => parse_digits (acc * 10 + d)%N s'
      | None => None
      end
  end.

(** A key is an array index when it is the canonical decimal numeral of an
    integer in [0, 2^32 - 2]. *)
Definition array_index (s : string) : option N :=
  match s with
  | EmptyString => None
  | String "0"%char EmptyString => Some 0%N
  | String "0"%char _ => None
  | _ =>
      match parse_digits 0 s with
      | Some n => if (n <? 4294967295)%N then Some n else None
      | None => None
      end
  end.

Definition index_le (a b : N * string) : Prop := (a.1 <= b.1)%N.

#[global] Instance index_le_dec a b : Decision (index_le a b).
Proof. unfold index_le. apply _. Defined.

Definition index_keys (ks : list string) : list (N * string) :=
  omap (λ k, (λ n, (n, k)) <$> array_index k) ks.

Definition name_keys (ks : list string) : list string :=
  filter (λ k, array_index k = None) ks.

(** [Object.keys(o)]: array indices in ascending order, then the other
    keys in creation order. *)
Definition keys (o : obj) : list string :=
  (merge_sort index_le (index_keys o.*1)).*2 ++ name_keys o.*1.

(** [Object.assign(target, source)]: every own property of the source is
    assigned to the target, in the order of [keys]; an [undefined] source
    is skipped. *)
Definition assign (target : obj) (source : option obj) : obj :=
  match source with
  | None => target
  | Some s => foldl (λ t k, write t k (read s k)) target (keys s)
  end.

End JsObj.

Abbreviation obj := JsObj.obj.

(** ** Results and errors *)

Inductive error : Type := TypeError.

Inductive outcome (A : Type) : Type :=
  | Return (a : A)
  | Throw (e : error).
Arguments Return {A} a.
Arguments Throw {A} e.

#[global] Instance outcome_ret : MRet outcome := λ A a, Return a.

#[global] Instance outcome_bind : MBind outcome := λ A B f m,
  match m with
  | Return a => f a
  | Throw e => Throw e
  end.

(** ** What a read can find *)

(** Handles of directive instances: primitive values that the class
    stores and hands back. *)
Definition directive : Type := nat.

(** The result of a member read [o[k]] on an object of the class: a
    stored value, a plain object of the class (a namespace object, or the
    object that [setProp] installed as the prototype of [_props]), or a
    value of the language that the class did not create (a builtin
    function found on [Object.prototype], [Object.prototype] itself). *)
Inductive jsval (E : Type) : Type :=
  | Prim (v : value)
  | Plain (o : obj)
  | Foreign (e : E).
Arguments Prim {E} v.
Arguments Plain {E} o.
Arguments Foreign {E} e.

(** The result of [_directives[name]]: a stored handle, or what the read
    finds when there is none. *)
Inductive found (E : Type) : Type :=
  | Handle (d : directive)
  | NoHandle (x : jsval E).
Arguments Handle {E} d.
Arguments NoHandle {E} x.

(** ** The host: what the class uses and the repository does not define *)

Class Host : Type := {
  (** [String.prototype.toLowerCase] *)
  toLowerCase : string → string;
  (** [Case.kebab] of the npm package [case] *)
  kebab : string → string;
  (** the values of the language that a read can reach and the class did
      not create *)
  foreign : Type;
  (** [Object.prototype], as a value *)
  object_prototype : foreign;
  (** the data members of [Object.prototype]: [inherited k] is the value
      that [({})[k]] reads for a key other than [__proto__], [None] when
      [Object.prototype] has no member [k] and the read gives
      [undefined].  The member [hasOwnProperty] is the builtin of the
      language. *)
  inherited : string → option foreign;
  (** [e[k]], a member read on a foreign value *)
  foreign_get : foreign → string → outcome (jsval foreign);
  (** [s[k]], a member read on a primitive string *)
  string_get : string → string → outcome (jsval foreign)
}.

(** ** Nodes and the store *)

(** References to nodes and to arrays: addresses in the store. *)
Abbreviation ref := nat.
Abbreviation aref := nat.

Record CombineNode : Type := mkNode {
  name : string;
  blockName : string;
  elementName : string;
  isBlock : bool;
  isElement : bool;
  (** the own properties of the object in [_props]: the namespaces *)
  _props : gmap string obj;
  (** the prototype of the object in [_props]: [None] for
      [Object.prototype], as [{}] has it; [Some p] for the plain object
      with own properties [p] that an assignment to [_props.__proto__]
      installed *)
  _props_proto : option obj;
  (** the array of children *)
  _content : aref;
  (** the array of mixins *)
  _mixins : aref;
  (** the own properties of the object in [_directives]; its prototype
      stays [Object.prototype], since handles are primitive *)
  _directives : gmap string directive
}.

Definition with_props (f : gmap string obj → gmap string obj) (n : CombineNode) : CombineNode :=
  mkNode (name n) (blockName n) (elementName n) (isBlock n) (isElement n)
         (f (_props n)) (_props_proto n) (_content n) (_mixins n) (_directives n).

Definition with_props_proto (f : option obj → option obj) (n : CombineNode) : CombineNode :=
  mkNode (name n) (blockName n) (elementName n) (isBlock n) (isElement n)
         (_props n) (f (_props_proto n)) (_content n) (_mixins n) (_directives n).

Definition with_content (f : aref → aref) (n : CombineNode) : CombineNode :=
  mkNode (name n) (blockName n) (elementName n) (isBlock n) (isElement n)
         (_props n) (_props_proto n) (f (_content n)) (_mixins n) (_directives n).

Definition with_directives (f : gmap string directive → gmap string directive)
    (n : CombineNode) : CombineNode :=
  mkNode (name n) (blockName n) (elementName n) (isBlock n) (isElement n)
         (_props n) (_props_proto n) (_content n) (_mixins n) (f (_directives n)).

(** The store: the node at address [r] is the [r]-th node created, the
    array at address [a] the [a]-th array created.  The elements of an
    array are references to nodes. *)
Record heap : Type := mkHeap {
  objects : list CombineNode;
  arrays : list (list ref)
}.

#[global] Instance heap_lookup : Lookup ref CombineNode heap := λ r h, objects h !! r.

#[global] Instance heap_empty : Empty heap := mkHeap [] [].

(** ** The monad of method bodies: state, and exceptions that keep the state *)

Definition M (A : Type) : Type := heap → outcome A * heap.

#[global] Instance M_ret : MRet M := λ A a h, (Return a, h).

#[global] Instance M_bind : MBind M := λ A B f m h,
  match m h with
  | (Return a, h') => f a h'
  | (Throw e, h') => (Throw e, h')
  end.

Definition throw {A : Type} (e : error) : M A := λ h, (Throw e, h).

(** A result or an error that was computed without the store. *)
Definition lift {A : Type} (o : outcome A) : M A := λ h, (o, h).

(** Member access on a reference; a reference that is no node behaves as
    [undefined], whose members cannot be read. *)
Definition deref (r : ref) : M CombineNode := λ h,
  match h !! r with
  | Some n => (Return n, h)
  | None => (Throw TypeError, h)
  end.

(** Assignment to a field of the node behind [r]. *)
Definition modify (r : ref) (f : CombineNode → CombineNode) : M () := λ h,
  match h !! r with
  | Some n => (Return (), mkHeap (<[r := f n]> (objects h)) (arrays h))
  | None => (Throw TypeError, h)
  end.

(** [new]: the fresh node is stored at the next free address. *)
Definition alloc (n : CombineNode) : M ref := λ h,
  (Return (List.length (objects h)), mkHeap (objects h ++ [n]) (arrays h)).

(** An array literal: the fresh array is stored at the next free
    address. *)
Definition new_array (items : list ref) : M aref := λ h,
  (Return (List.length (arrays h)), mkHeap (objects h) (arrays h ++ [items])).

(** [a.length]; a reference that is no array behaves as [undefined]. *)
Definition array_length (a : aref) : M nat := λ h,
  match arrays h !! a with
  | Some items => (Return (List.length items), h)
  | None => (Throw TypeError, h)
  end.

(** [a.push(x)]: the array behind [a] grows in place. *)
Definition push (a : aref) (x : ref) : M () := λ h,
  match arrays h !! a with
  | Some items => (Return (), mkHeap (objects h) (<[a := items ++ [x]]> (arrays h)))
  | None => (Throw TypeError, h)
  end.

(** What [concat] appends for the argument [a]: the elements of the
    array; for a reference that is no array, which stands for
    [undefined], that one value, which is no node. *)
Definition spread (h : heap) (a : aref) : list ref :=
  default [List.length (objects h)] (arrays h !! a).

(** [l.concat(a)]: a new array, which is not stored since the caller
    only iterates over it. *)
Definition concat (l : list ref) (a : aref) : M (list ref) := λ h,
  (Return (l ++ spread h a), h).

(** [for (let x of l) { s = body(s, x) }] *)
Fixpoint for_of {A S : Type} (body : S → A → M S) (l : list A) (s : S) : M S :=
  match l with
  | [] => mret s
  | x :: l' => s' ← body s x; for_of body l' s'
  end.

(** ** The class [CombineNode] *)

(** The member [hasOwnProperty] that a read on [this._props] finds is the
    builtin: neither a namespace of that name nor a property of that name
    of the installed prototype shadows it. *)
Definition unshadowed (n : CombineNode) : Prop :=
  _props n !! "hasOwnProperty" = None
  ∧ (_props_proto n ≫= λ p, JsObj.get p "hasOwnProperty") = None.

#[global] Instance unshadowed_dec n : Decision (unshadowed n).
Proof. unfold unshadowed. apply _. Defined.

(** [this._props.hasOwnProperty(k)]: the member [hasOwnProperty] is read
    first; when it is shadowed, what is called is no function. *)
Definition props_hasOwnProperty (n : CombineNode) (k : string) : outcome bool :=
  if bool_decide (unshadowed n)
  then Return (bool_decide (is_Some (_props n !! k)))
  else Throw TypeError.

Section Methods.
Context `{Host}.

(** [o[k]] when [o] has no own property [k] and its prototype is
    [Object.prototype]: the getter of [__proto__] gives the prototype,
    any other key the member of [Object.prototype], or [undefined]. *)
Definition inherited_member (k : string) : jsval foreign :=
  if decide (k = "__proto__") then Foreign object_prototype
  else match inherited k with
       | Some e => Foreign e
       | None => Prim Undefined
       end.

(** [o[k]] on a plain object with own properties [o] whose prototype is
    [Object.prototype]. *)
Definition member_plain (o : obj) (k : string) : jsval foreign :=
  match JsObj.get o k with
  | Some v => Prim v
  | None => inherited_member k
  end.

(** [this._props[k]]: an own namespace; or, through the prototype that an
    assignment to [__proto__] installed, a property of that object, the
    object itself for the key [__proto__], or what it inherits; or what
    [{}] inherits. *)
Definition props_member (n : CombineNode) (k : string) : jsval foreign :=
  match _props n !! k with
  | Some o => Plain o
  | None =>
      match _props_proto n with
      | None => inherited_member k
      | Some p =>
          match JsObj.get p k with
          | Some v => Prim v
          | None => if decide (k = "__proto__") then Plain p else inherited_member k
          end
      end
  end.

(** [x[k]] on what [getPropNS] returned. *)
Definition get_member (x : jsval foreign) (k : string) : outcome (jsval foreign) :=
  match x with
  | Prim Undefined => Throw TypeError
  | Prim (Str s) => string_get s k
  | Plain o => Return (member_plain o k)
  | Foreign e => foreign_get e k
  end.

(** [x.hasOwnProperty(k)] on what [getPropNS] returned, in [hasProp].
    There [x] is a namespace object (lemma [hasPropNS_receiver]); an own
    property [hasOwnProperty] of it shadows the builtin, and [undefined]
    has no members.  The other cases are not reached. *)
Definition call_hasOwnProperty (x : jsval foreign) (k : string) : outcome bool :=
  match x with
  | Plain o =>
      if bool_decide (JsObj.get o "hasOwnProperty" = None)
      then Return (JsObj.hasOwnProperty o k)
      else Throw TypeError
  | _ => Throw TypeError
  end.

(** The source of [Object.assign] in [getCssMixedRules]: the own
    properties of a namespace object; [undefined] has none.  At that call
    the source is a namespace object (lemma [hasPropNS_receiver]). *)
Definition own_properties (x : jsval foreign) : option obj :=
  match x with
  | Plain o => Some o
  | _ => None
  end.

(** [this._props[namespace] = {}]: the key [__proto__] reaches the setter
    of [Object.prototype], which installs the new object as the prototype
    of [_props]; every other key becomes an own property. *)
Definition create_namespace (namespace : string) (n : CombineNode) : CombineNode :=
  if decide (namespace = "__proto__")
  then with_props_proto (λ _, Some JsObj.empty) n
  else with_props (λ p, <[namespace := JsObj.empty]> p) n.

(** The object that [this._props[namespace]] found is put back, changed:
    it is the own namespace, or else the installed prototype. *)
Definition store_namespace (namespace : string) (o : obj) (n : CombineNode) : CombineNode :=
  match _props n !! namespace with
  | Some _ => with_props (λ p, <[namespace := o]> p) n
  | None => with_props_proto (λ _, Some o) n
  end.

(** [name[0].toLowerCase() !== name[0]]; [name[0]] is [undefined] for the
    empty string, and the call on it throws. *)
Definition isCapitalizeFirstLetter (name : string) : M bool :=
  match name with
  | EmptyString => throw TypeError
  | String c _ =>
      let first := String c EmptyString in
      mret (bool_decide (toLowerCase first ≠ first))
  end.

(** [new CombineNode(name)] *)
Definition constructor (name : string) : M ref :=
  cap ← isCapitalizeFirstLetter name;
  content ← new_array [];
  mixins ← new_array [];
  alloc (mkNode name
                (if (cap : bool) then name else "")
                (if negb cap then name else "")
                cap
                (negb cap)
                ∅ None content mixins ∅).

Definition addChild (this node : ref) : M () :=
  n ← deref this; push (_content n) node.

Definition setChilds (this : ref) (nodes : aref) : M () :=
  modify this (with_content (λ _, nodes)).

Definition getChilds (this : ref) : M aref :=
  n ← deref this; mret (_content n).

Definition hasChilds (this : ref) : M bool :=
  n ← deref this; len ← array_length (_content n); mret (bool_decide (0 < len)).

Definition emptyChilds (this : ref) : M bool :=
  n ← deref this; len ← array_length (_content n); mret (bool_decide (len = 0)).

Definition addMixin (this mixinNode : ref) : M () :=
  n ← deref this; push (_mixins n) mixinNode.

Definition getMixines (this : ref) : M aref :=
  n ← deref this; mret (_mixins n).

(** [this._directives[name] = directive]: the key [__proto__] reaches the
    setter of [Object.prototype], which ignores a primitive. *)
Definition addDirective (this : ref) (name : string) (d : directive) : M () :=
  modify this (with_directives (λ ds,
    if decide (name = "__proto__") then ds else <[name := d]> ds)).

(** [this._directives[name]] *)
Definition getDirective (this : ref) (name : string) : M (found foreign) :=
  n ← deref this;
  mret (match _directives n !! name with
        | Some d => Handle d
        | None => NoHandle (inherited_member name)
        end).

(** [this._directives.hasOwnProperty(name)]: a directive stored under the
    name [hasOwnProperty] shadows the builtin, and what is called is no
    function. *)
Definition hasDirective (this : ref) (name : string) : M bool :=
  n ← deref this;
  if bool_decide (_directives n !! "hasOwnProperty" = None)
  then mret (bool_decide (is_Some (_directives n !! name)))
  else throw TypeError.

(** The own properties of the object in [_directives]. *)
Definition getDirectives (this : ref) : M (gmap string directive) :=
  n ← deref this; mret (_directives n).

Definition getPropNS (this : ref) (name : string) : M (jsval foreign) :=
  n ← deref this; mret (props_member n name).

Definition hasPropNS (this : ref) (name : string) : M bool :=
  n ← deref this; lift (props_hasOwnProperty n name).

(** [this.getPropNS(namespace)[name]] *)
Definition getProp (this : ref) (namespace name : string) : M (jsval foreign) :=
  ns ← getPropNS this namespace;
  lift (get_member ns name).

(** [this.hasPropNS(namespace) && this.getPropNS(namespace).hasOwnProperty(name)] *)
Definition hasProp (this : ref) (namespace name : string) : M bool :=
  b ← hasPropNS this namespace;
  if (b : bool) then
    ns ← getPropNS this namespace;
    lift (call_hasOwnProperty ns name)
  else mret false.

(** After the first statement [this._props[namespace]] is a plain object:
    the namespace, or for the key [__proto__] the prototype that the
    first statement installed (lemma [setProp_receiver]); the other cases
    of the second statement are not reached. *)
Definition setProp (this : ref) (namespace name : string) (v : value) : M () :=
  b ← hasPropNS this namespace;
  (if negb (b : bool)
   then modify this (create_namespace namespace)
   else mret ());;
  ns ← getPropNS this namespace;
  match ns with
  | Plain o => modify this (store_namespace namespace (JsObj.write o name v))
  | _ => throw TypeError
  end.

(** [[this].concat(this.getMixines())] *)
Definition getAllMixedNodes (this : ref) : M (list ref) :=
  ms ← getMixines this; concat [this] ms.

Definition getHtmlTag (this : ref) : M (jsval foreign) :=
  nodes ← getAllMixedNodes this;
  for_of (λ tag node,
            b ← hasProp node "html" "tag";
            if (b : bool) then getProp node "html" "tag" else mret tag)
         nodes (Prim (Str "div")).

(** The first loop of [getCssMixedRules]: the object [mixedRules]. *)
Definition mixedRules (this : ref) : M obj :=
  nodes ← getAllMixedNodes this;
  for_of (λ rules node,
            b ← hasPropNS node "css";
            if (b : bool)
            then ns ← getPropNS node "css"; mret (JsObj.assign rules (own_properties ns))
            else mret rules)
         nodes JsObj.empty.

(** The second loop of [getCssMixedRules]: the array [result]. *)
Definition cssRuleList (rules : obj) : list string :=
  (λ cssRule, kebab cssRule +:+ ":" +:+ to_string (JsObj.read rules cssRule))
    <$> JsObj.keys rules.

Definition getCssMixedRules (this : ref) : M string :=
  rules ← mixedRules this;
  mret (join ";" (cssRuleList rules)).

Definition getHtmlClass (this : ref) : M string :=
  n ← deref this;
  mret (kebab (blockName n)
        +:+ (if isElement n then "__" +:+ kebab (elementName n) else "")).

Definition getHtmlMixedClass (this : ref) : M string :=
  nodes ← getAllMixedNodes this;
  classes ← for_of (λ classes node, c ← getHtmlClass node; mret (classes ++ [c]))
                   nodes [];
  mret (join " " classes).

(** [v.length] of a string; [undefined] has no members. *)
Definition length_of (v : value) : M nat :=
  match v with
  | Str s => mret (String.length s)
  | Undefined => throw TypeError
  end.

Definition _getAttributesString (this : ref) : M string :=
  class ← getHtmlMixedClass this;
  styles ← getCssMixedRules this;
  let attrs : obj := [("class", Str class); ("styles", Str styles)] in
  result ← for_of (λ result name,
                     len ← length_of (JsObj.read attrs name);
                     if bool_decide (0 < len)
                     then mret (result ++ [name +:+ "=" +:+ dquote
                                           +:+ to_string (JsObj.read attrs name)
                                           +:+ dquote])
                     else mret result)
                  (JsObj.keys attrs) [];
  mret (join " " result).

(** [`${tag}`] for what [getHtmlTag] returned: the default or a stored
    value (lemma [getHtmlTag_primitive]); the other cases are not
    reached. *)
Definition tag_string (tag : jsval foreign) : M string :=
  match tag with
  | Prim v => mret (to_string v)
  | _ => throw TypeError
  end.

Definition getHtmlTagStart (this : ref) : M string :=
  tag ← getHtmlTag this;
  tag ← tag_string tag;
  attrs ← _getAttributesString this;
  mret ("<" +:+ tag +:+ " " +:+ attrs +:+ ">").

Definition getHtmlTagEnd (this : ref) : M string :=
  tag ← getHtmlTag this;
  tag ← tag_string tag;
  mret ("</" +:+ tag +:+ ">").

End Methods.

(** ** Programs over the class: sequences of method calls *)

Inductive call : Type :=
  | New (name : string)
  | NewArray (items : list ref)
  | AddChild (this node : ref)
  | SetChilds (this : ref) (nodes : aref)
  | GetChilds (this : ref)
  | HasChilds (this : ref)
  | EmptyChilds (this : ref)
  | AddMixin (this mixinNode : ref)
  | GetMixines (this : ref)
  | AddDirective (this : ref) (name : string) (d : directive)
  | GetDirective (this : ref) (name : string)
  | HasDirective (this : ref) (name : string)
  | GetDirectives (this : ref)
  | GetPropNS (this : ref) (name : string)
  | HasPropNS (this : ref) (name : string)
  | GetProp (this : ref) (namespace name : string)
  | HasProp (this : ref) (namespace name : string)
  | SetProp (this : ref) (namespace name : string) (v : value)
  | GetAllMixedNodes (this : ref)
  | GetHtmlTag (this : ref)
  | GetCssMixedRules (this : ref)
  | GetHtmlClass (this : ref)
  | GetHtmlMixedClass (this : ref)
  | GetAttributesString (this : ref)
  | GetHtmlTagStart (this : ref)
  | GetHtmlTagEnd (this : ref).

Section Programs.
Context `{Host}.

(** A call run for its effect on the store; its result is dropped.
    [NewArray] is the array literal with which a caller makes the
    argument of [setChilds]. *)
Definition perform (c : call) : M () :=
  match c with
  | New name => constructor name;; mret ()
  | NewArray items => new_array items;; mret ()
  | AddChild this node => addChild this node
  | SetChilds this nodes => setChilds this nodes
  | GetChilds this => getChilds this;; mret ()
  | HasChilds this => hasChilds this;; mret ()
  | EmptyChilds this => emptyChilds this;; mret ()
  | AddMixin this mixinNode => addMixin this mixinNode
  | GetMixines this => getMixines this;; mret ()
  | AddDirective this name d => addDirective this name d
  | GetDirective this name => getDirective this name;; mret ()
  | HasDirective this name => hasDirective this name;; mret ()
  | GetDirectives this => getDirectives this;; mret ()
  | GetPropNS this name => getPropNS this name;; mret ()
  | HasPropNS this name => hasPropNS this name;; mret ()
  | GetProp this namespace name => getProp this namespace name;; mret ()
  | HasProp this namespace name => hasProp this namespace name;; mret ()
  | SetProp this namespace name v => setProp this namespace name v
  | GetAllMixedNodes this => getAllMixedNodes this;; mret ()
  | GetHtmlTag this => getHtmlTag this;; mret ()
  | GetCssMixedRules this => getCssMixedRules this;; mret ()
  | GetHtmlClass this => getHtmlClass this;; mret ()
  | GetHtmlMixedClass this => getHtmlMixedClass this;; mret ()
  | GetAttributesString this => _getAttributesString this;; mret ()
  | GetHtmlTagStart this => getHtmlTagStart this;; mret ()
  | GetHtmlTagEnd this => getHtmlTagEnd this;; mret ()
  end.

(** The store after a sequence of calls; a call that throws leaves the
    store as it was when it threw, and the caller goes on. *)
Definition after (cs : list call) (h : heap) : heap :=
  foldl (λ h c, (perform c h).2) h cs.

(** The stores a program can build, starting from no node at all. *)
Definition reachable (h : heap) : Prop := ∃ cs, h = after cs ∅.

End Programs.

(** ** Functional reading of the derived computations

    What the methods compute, as functions of the node records behind
    the mixed-node sequence.  The lemmas [run_*] below relate each of
    them to the method it reads. *)

(** The fields the constructor derives from the name. *)
Definition classification (n : CombineNode) : string * string * string * bool * bool :=
  (name n, blockName n, elementName n, isBlock n, isElement n).

(** The nodes behind a list of references, when each of them is a node. *)
Definition nodes_at (h : heap) (rs : list ref) : option (list CombineNode) :=
  mapM (λ r, h !! r) rs.
Arguments nodes_at : simpl never.

(** The references that [getAllMixedNodes] returns for a node record. *)
Definition mixed_refs (h : heap) (this : ref) (n : CombineNode) : list ref :=
  this :: spread h (_mixins n).
Arguments mixed_refs : simpl never.

(** The records of [this] and of its mixins, in the order of
    [getAllMixedNodes]. *)
Definition mixed (h : heap) (this : ref) : option (list CombineNode) :=
  n ← h !! this; nodes_at h (mixed_refs h this n).

(** A loop whose body may throw. *)
Fixpoint fold_out {S A : Type} (f : S → A → outcome S) (l : list A) (s : S) : outcome S :=
  match l with
  | [] => Return s
  | x :: l' =>
      match f s x with
      | Return s' => fold_out f l' s'
      | Throw e => Throw e
      end
  end.

(** One attribute, or nothing when its value is empty. *)
Definition attribute (name val : string) : list string :=
  if bool_decide (0 < String.length val)
  then [name +:+ "=" +:+ dquote +:+ val +:+ dquote]
  else [].

Definition attributes_string (class styles : string) : string :=
  join " " (attribute "class" class ++ attribute "styles" styles).

(** The own property [(namespace, name)] of a node record. *)
Definition prop_of (namespace name : string) (n : CombineNode) : option value :=
  o ← _props n !! namespace; JsObj.get o name.

(** What [setProp] makes of a node record on which [hasPropNS] returns:
    under the namespace [__proto__] a new prototype with at most the one
    property, under any other namespace the property written into the
    namespace, which is created when it is missing. *)
Definition set_prop (namespace name : string) (v : value) (n : CombineNode) : CombineNode :=
  match _props n !! namespace with
  | Some o => with_props (λ p, <[namespace := JsObj.write o name v]> p) n
  | None =>
      if decide (namespace = "__proto__")
      then with_props_proto (λ _, Some (JsObj.write JsObj.empty name v)) n
      else with_props (λ p, <[namespace := JsObj.write JsObj.empty name v]> p) n
  end.

Section Readings.
Context `{Host}.

Definition hasProp_of (n : CombineNode) (namespace name : string) : outcome bool :=
  b ← props_hasOwnProperty n namespace;
  if (b : bool) then call_hasOwnProperty (props_member n namespace) name
  else Return false.

Definition getProp_of (n : CombineNode) (namespace name : string) : outcome (jsval foreign) :=
  get_member (props_member n namespace) name.

Definition tag_step (tag : jsval foreign) (n : CombineNode) : outcome (jsval foreign) :=
  b ← hasProp_of n "html" "tag";
  if (b : bool) then getProp_of n "html" "tag" else Return tag.

Definition html_tag (ns : list CombineNode) : outcome (jsval foreign) :=
  fold_out tag_step ns (Prim (Str "div")).

Definition css_step (rules : obj) (n : CombineNode) : outcome obj :=
  b ← props_hasOwnProperty n "css";
  Return (if (b : bool)
          then JsObj.assign rules (own_properties (props_member n "css"))
          else rules).

Definition merged_css (ns : list CombineNode) : outcome obj :=
  fold_out css_step ns JsObj.empty.

Definition css_rules (ns : list CombineNode) : outcome string :=
  rules ← merged_css ns; Return (join ";" (cssRuleList rules)).

Definition class_of (n : CombineNode) : string :=
  kebab (blockName n)
  +:+ (if isElement n then "__" +:+ kebab (elementName n) else "").

Definition mixed_class (ns : list CombineNode) : string :=
  join " " (class_of <$> ns).

End Readings.

(** ** A host for ASCII text *)

Module Ascii_host.

Definition is_upper (c : ascii) : bool :=
  let n := nat_of_ascii c in (65 <=? n) && (n <=? 90).

Definition is_lower_or_digit (c : ascii) : bool :=
  let n := nat_of_ascii c in
  ((97 <=? n) && (n <=? 122)) || ((48 <=? n) && (n <=? 57)).

Definition lower (c : ascii) : ascii :=
  if is_upper c then ascii_of_nat (nat_of_ascii c + 32) else c.

(** [toLowerCase] on code units below 128. *)
Fixpoint toLowerCase (s : string) : string :=
  match s with
  | EmptyString => EmptyString
  | String c s' => String (lower c) (toLowerCase s')
  end.

Fixpoint kebab_from (after_word : bool) (s : string) : string :=
  match s with
  | EmptyString => EmptyString
  | String c s' =>
      if is_upper c
      then (if after_word then "-" else "") +:+ String (lower c) (kebab_from false s')
      else String c (kebab_from (is_lower_or_digit c) s')
  end.

(** Modelled from the spec: [Case.kebab] belongs to the npm package
    [case], which is no part of the repository; the spec describes its
    result as kebab-case, "hyphen-separated lowercase".  This is that
    conversion for camel-case identifiers of ASCII letters and digits: a
    capital that follows a small letter or a digit starts a new word. *)
Definition kebab (s : string) : string := kebab_from false s.

(** Foreign values are kept symbolic: a foreign value is named by the
    path of member reads that reaches it from the global object, and a
    member read on a foreign value or on a string extends the path.  The
    path names whatever the language finds there, [undefined] included
    (as for [Object.prototype.constructor.tag]); this host does not
    decide it, and nothing below is evaluated on such a read. *)
Definition foreign : Type := list string.

Definition object_prototype : foreign := ["Object"; "prototype"].

(** The data members of [Object.prototype] in ECMAScript. *)
Definition members : list string :=
  ["constructor"; "hasOwnProperty"; "isPrototypeOf"; "propertyIsEnumerable";
   "toLocaleString"; "toString"; "valueOf";
   "__defineGetter__"; "__defineSetter__"; "__lookupGetter__"; "__lookupSetter__"].

Definition inherited (k : string) : option foreign :=
  if bool_decide (k ∈ members) then Some (object_prototype ++ [k]) else None.

Definition foreign_get (e : foreign) (k : string) : outcome (jsval foreign) :=
  Return (Foreign (e ++ [k])).

Definition string_get (s k : string) : outcome (jsval foreign) :=
  Return (Foreign ["String"; s; k]).

Definition host : Host :=
  Build_Host toLowerCase kebab foreign object_prototype inherited foreign_get string_get.

End Ascii_host.

(** ** Observations on a store, through the methods *)

Section Observations.
Context `{Host}.

(** Node [r] has the property [(namespace, name)], with value [v]. *)
Definition has_value (h : heap) (r : ref) (namespace name : string) (v : value) : Prop :=
  hasProp r namespace name h = (Return true, h)
  ∧ getProp r namespace name h = (Return (Prim v), h).



(** Node [r] has the css namespace, with own properties [o]. *)
Definition has_css (h : heap) (r : ref) (o : obj) : Prop :=
  hasPropNS r "css" h = (Return true, h)
  ∧ getPropNS r "css" h = (Return (Plain o), h).

(** Node [r] is a node without the css namespace. *)
Definition no_css (h : heap) (r : ref) : Prop :=
  hasPropNS r "css" h = (Return false, h).

(** Nodes [r] and [d] carry the same css properties: the same value, or
    none, under every key. *)
Definition same_css (h : heap) (r d : ref) : Prop :=
  (no_css h r ∧ no_css h d)
  ∨ ∃ o o', has_css h r o ∧ has_css h d o' ∧ ∀ k, JsObj.get o k = JsObj.get o' k.

(** Node [m] sets no css key of node [d] to another value. *)
Definition agrees_with (h : heap) (m d : ref) : Prop :=
  no_css h m
  ∨ no_css h d
  ∨ ∃ o o', has_css h m o ∧ has_css h d o'
      ∧ ∀ k v, JsObj.get o' k = Some v → JsObj.get o k = None ∨ JsObj.get o k = Some v.

End Observations.

(** ** Scenarios *)

Section Scenarios.
Context `{Host}.

(** A block [Button] with a tag and one css rule, and an element
    [disabled] mixed into it. *)
Definition button_scenario : M ref :=
  button ← constructor "Button";
  setProp button "html" "tag" (Str "button");;
  setProp button "css" "backgroundColor" (Str "red");;
  disabled ← constructor "disabled";
  addMixin button disabled;;
  mret button.

(** Node [a] with mixins [b] then [c]; each node in [setters] sets the
    tag and the css colour to its own name. *)
Definition priority_scenario (setters : list string) : M ref :=
  a ← constructor "a";
  b ← constructor "b";
  c ← constructor "c";
  addMixin a b;;
  addMixin a c;;
  for_of (λ _ rn,
            if bool_decide (rn.2 ∈ setters)
            then setProp rn.1 "html" "tag" (Str rn.2);;
                 setProp rn.1 "css" "color" (Str rn.2)
            else mret ())
         [(a, "a"); (b, "b"); (c, "c")] ();;
  mret a.


(** A node [a] with an [html] property named [hasOwnProperty], and a
    mixin [b] whose tag is [span]. *)
Definition shadowed_tag_scenario : M ref :=
  a ← constructor "a";
  setProp a "html" "hasOwnProperty" (Str "x");;
  b ← constructor "b";
  setProp b "html" "tag" (Str "span");;
  addMixin a b;;
  mret a.


(** A red node [a] with a blue mixin [b]; when [again] is set, [a] is
    mixed into itself after [b]. *)
Definition override_scenario (again : bool) : M ref :=
  a ← constructor "a";
  setProp a "css" "color" (Str "red");;
  b ← constructor "b";
  setProp b "css" "color" (Str "blue");;
  addMixin a b;;
  (if again then addMixin a a else mret ());;
  mret a.

(** A red node [a] mixed into itself, when [again] is set. *)
Definition repeat_scenario (again : bool) : M ref :=
  a ← constructor "a";
  setProp a "css" "color" (Str "red");;
  (if again then addMixin a a else mret ());;
  mret a.

End Scenarios.

(** The nodes of [button_scenario] once it has run from a store with [k]
    arrays; the block mixes in the element through its array of
    mixins. *)
Definition button_node (k : nat) : CombineNode :=
  mkNode "Button" "Button" "" true false
         (<["css" := [("backgroundColor", Str "red")]]>
            (<["html" := [("tag", Str "button")]]> ∅))
         None k (S k) ∅.

Definition disabled_node (k : nat) : CombineNode :=
  mkNode "disabled" "" "disabled" false true ∅ None (S (S k)) (S (S (S k))) ∅.

(** The stores that the scenarios build from nothing on the ASCII host. *)
Definition button_store : heap := (@button_scenario Ascii_host.host ∅).2.

Definition priority_store (setters : list string) : heap :=
  (@priority_scenario Ascii_host.host setters ∅).2.


Definition shadowed_tag_store : heap := (@shadowed_tag_scenario Ascii_host.host ∅).2.


Definition override_store (again : bool) : heap :=
  (@override_scenario Ascii_host.host again ∅).2.

Definition repeat_store (again : bool) : heap :=
  (@repeat_scenario Ascii_host.host again ∅).2.

(** ** Frame notions *)

(** A computation that leaves the store as it found it, whatever it
    returns or throws. *)
Definition readonly {A : Type} (m : M A) : Prop := ∀ h, (m h).2 = h.

(** A computation that keeps a property of the store. *)
Definition preserves {A : Type} (P : heap → Prop) (m : M A) : Prop :=
  ∀ h, P h → P (m h).2.

(** The node behind [r] exists and has classification [c]. *)
Definition has_classification
    (r : ref) (c : string * string * string * bool * bool) (h : heap) : Prop :=
  ∃ n, h !! r = Some n ∧ classification n = c.

(** What the constructor establishes for a node. *)
Definition classified (n : CombineNode) : Prop :=
  isElement n = negb (isBlock n)
  ∧ blockName n = (if isBlock n then name n else "")
  ∧ elementName n = (if isBlock n then "" else name n).

(** The store in which the array behind [a] holds [items]. *)
Definition set_array (a : aref) (items : list ref) (h : heap) : heap :=
  mkHeap (objects h) (<[a := items]> (arrays h)).

(** The store in which the node behind [r] is [n]. *)
Definition set_node (r : ref) (n : CombineNode) (h : heap) : heap :=
  mkHeap (<[r := n]> (objects h)) (arrays h).

(** ** Loops, read through the references *)

(** The fold of a loop over references, each read in the store. *)
Definition run_refs {S : Type} (f : S → CombineNode → outcome S)
    (h : heap) (rs : list ref) (s : S) : outcome S :=
  match nodes_at h rs with
  | Some ns => fold_out f ns s
  | None => Throw TypeError
  end.

(** ** Merging css namespaces *)

(** The css namespaces of a sequence of nodes, [None] where a node has
    none. *)
Definition css_sources (ns : list CombineNode) : list (option obj) :=
  (λ n, _props n !! "css") <$> ns.

(** ** Calls that only read *)

(** The calls that leave the store as it is. *)
Definition reads (c : call) : bool :=
  match c with
  | New _ | NewArray _ | AddChild _ _ | SetChilds _ _ | AddMixin _ _
  | AddDirective _ _ _ | SetProp _ _ _ _ => false
  | _ => true
  end.

(** ** The store of the button scenario *)

(** The store that the button scenario builds on a store [h0]. *)
Definition button_heap (h0 : heap) : heap :=
  mkHeap (objects h0 ++ [button_node (length (arrays h0)); disabled_node (length (arrays h0))])
         (arrays h0 ++ [[]; [S (length (objects h0))]; []; []]).

(** ** What rendering depends on *)

Section Rendering.
Context `{Host}.

(** The results of the seven derived computations on [this]. *)
Definition rendering (this : ref) (h : heap) :
    outcome (jsval foreign) * outcome string * outcome string * outcome string
    * outcome string * outcome string * outcome string :=
  ((getHtmlTag this h).1, (getCssMixedRules this h).1, (getHtmlClass this h).1,
   (getHtmlMixedClass this h).1, (_getAttributesString this h).1,
   (getHtmlTagStart this h).1, (getHtmlTagEnd this h).1).

(** [this] and each entry of its mixed-node sequence is a node. *)
Definition well_mixed (h : heap) (this : ref) : Prop :=
  ∃ nodes, getAllMixedNodes this h = (Return nodes, h)
           ∧ Forall (λ m, is_Some (h !! m)) nodes.

(** Two node records that the derived computations cannot tell apart. *)
Definition same_render (n n' : CombineNode) : Prop :=
  (∀ tag, tag_step tag n = tag_step tag n')
  ∧ (∀ rules, css_step rules n = css_step rules n')
  ∧ class_of n = class_of n'.

End Rendering.

(** Node [r] holds, in the field [field], the array that [this] holds as
    its mixins. *)
Definition pushes_into_mixins (h : heap) (this r : ref) (field : CombineNode → aref) : bool :=
  match h !! this, h !! r with
  | Some n, Some R => bool_decide (field R = _mixins n)
  | _, _ => false
  end.

(** The calls that can change what a well-mixed node [this] renders: a
    property set under [css] or at [("html", "tag")], a property or
    namespace set under the name [hasOwnProperty] where it shadows the
    method that rendering calls, and a push into the array of mixins of
    [this]. *)
Definition may_change_rendering (h : heap) (this : ref) (c : call) : bool :=
  match c with
  | SetProp _ namespace name _ =>
      bool_decide (namespace = "css" ∨ namespace = "hasOwnProperty"
                   ∨ (namespace = "html" ∧ (name = "tag" ∨ name = "hasOwnProperty"))
                   ∨ (namespace = "__proto__" ∧ name = "hasOwnProperty"))
  | AddMixin r _ => pushes_into_mixins h this r _mixins
  | AddChild r _ => pushes_into_mixins h this r _content
  | _ => false
  end.

(** * Proofs *)

(** ** Objects *)

Module JsObjFacts.
Import JsObj.

Lemma get_set o k v k' :
  get (set o k v) k' = if decide (k = k') then Some v else get o k'.
Proof.
  induction o as [|[k0 v0] o IH]; simpl.
  - repeat case_decide; congruence.
  - destruct (decide (k0 = k)) as [->|Hne]; simpl.
    + repeat case_decide; congruence.
    + rewrite IH. repeat case_decide; congruence.
Qed.

Lemma set_id o k v : get o k = Some v → set o k v = o.
Proof.
  induction o as [|[k0 v0] o IH]; simpl; [done|].
  case_decide; intros Hg.
  - congruence.
  - by rewrite IH.
Qed.

Lemma get_write o k v k' :
  get (write o k v) k'
  = if decide (k = "__proto__") then get o k'
    else if decide (k = k') then Some v else get o k'.
Proof. unfold write. case_decide; [done|]. apply get_set. Qed.

Lemma get_write_eq o k v : k ≠ "__proto__" → get (write o k v) k = Some v.
Proof. intros Hk. rewrite get_write, decide_False, decide_True; done. Qed.

Lemma get_write_ne o k v k' : k ≠ k' → get (write o k v) k' = get o k'.
Proof. intros Hk. rewrite get_write. case_decide; [done|]. by rewrite decide_False. Qed.

Lemma write_id o k v : get o k = Some v → write o k v = o.
Proof. intros Hg. unfold write. case_decide; [done|]. by apply set_id. Qed.

Lemma get_is_Some o k : is_Some (get o k) ↔ k ∈ o.*1.
Proof.
  induction o as [|[k0 v0] o IH]; simpl.
  - split; [by intros [? ?] | by intros ?%elem_of_nil].
  - rewrite elem_of_cons. destruct (decide (k0 = k)) as [->|Hne].
    + split; [by left | by eexists].
    + rewrite IH. split; [by right | by intros [?|?]].
Qed.

Lemma elem_of_index_keys k ks :
  k ∈ (index_keys ks).*2 ↔ k ∈ ks ∧ is_Some (array_index k).
Proof.
  unfold index_keys. rewrite list_elem_of_fmap. split.
  - intros [[n k'] [-> [k'' [Hk Hi]]%list_elem_of_omap]]. simpl.
    destruct (array_index k'') eqn:E; simplify_eq/=. eauto.
  - intros [Hk [n Hn]]. exists (n, k). split; [done|].
    apply list_elem_of_omap. exists k. by rewrite Hn.
Qed.

Lemma elem_of_keys o k : k ∈ keys o ↔ is_Some (get o k).
Proof.
  unfold keys, name_keys.
  rewrite elem_of_app, merge_sort_Permutation, elem_of_index_keys,
    list_elem_of_filter, get_is_Some.
  destruct (array_index k) eqn:E; split.
  - by intros [[? _]|[? _]].
  - intros ?. left. split; [done | by eexists].
  - intros [[_ [? ?]]|[_ ?]]; done.
  - intros ?. by right.
Qed.

Lemma get_foldl_write (f : string → value) ks t k :
  get (foldl (λ t k, write t k (f k)) t ks) k
  = if decide (k ∈ ks ∧ k ≠ "__proto__") then Some (f k) else get t k.
Proof.
  revert t. induction ks as [|k0 ks IH]; intros t; cbn [foldl].
  - rewrite decide_False; [done|]. by intros [?%elem_of_nil _].
  - rewrite IH.
    destruct (decide (k ∈ ks ∧ k ≠ "__proto__")) as [[Hin Hk]|Hin].
    + rewrite decide_True; [done|]. split; [by right | done].
    + rewrite get_write.
      destruct (decide (k0 = k)) as [->|Hne].
      * destruct (decide (k = "__proto__")) as [Hk|Hk].
        -- rewrite decide_False; [done|]. by intros [_ ?].
        -- rewrite decide_True; [done|]. split; [by left | done].
      * rewrite (decide_False (P := k ∈ k0 :: ks ∧ _)).
        -- by case_decide.
        -- intros [[?|?]%elem_of_cons ?]; [done|]. by apply Hin.
Qed.

(** A merged object holds the source's value under the source's keys and
    keeps the target's value under the others. *)
Lemma get_assign t s k :
  k ≠ "__proto__" →
  get (assign t (Some s)) k
  = match get s k with Some v => Some v | None => get t k end.
Proof.
  intros Hk. unfold assign. rewrite get_foldl_write.
  case_decide as Hin; rewrite elem_of_keys in Hin.
  - destruct Hin as [[v Hv] _]. unfold read. by rewrite Hv.
  - destruct (get s k) eqn:E; [|done]. destruct Hin. split; [by eexists | done].
Qed.

Lemma get_assign_proto t s : get (assign t s) "__proto__" = get t "__proto__".
Proof.
  destruct s as [s|]; [|done]. unfold assign. rewrite get_foldl_write.
  rewrite decide_False; [done|]. by intros [_ ?].
Qed.

Lemma get_assign_opt t s k :
  k ≠ "__proto__" →
  get (assign t s) k
  = match s ≫= (λ o, get o k) with Some v => Some v | None => get t k end.
Proof. intros Hk. destruct s as [s|]; [by apply get_assign | done]. Qed.

(** Merging what the target already holds changes nothing, not even the
    order of its keys. *)
Lemma assign_id t s :
  (∀ k v, k ≠ "__proto__" → get s k = Some v → get t k = Some v) →
  assign t (Some s) = t.
Proof.
  intros Hsub. unfold assign.
  assert (Hks : ∀ k, k ∈ keys s → k ≠ "__proto__" → get t k = Some (read s k)).
  { intros k [v Hv]%elem_of_keys Hk. unfold read. rewrite Hv. by apply Hsub. }
  induction (keys s) as [|k ks IH]; simpl; [done|].
  assert (write t k (read s k) = t) as ->.
  { unfold write. case_decide; [done|]. apply set_id, Hks; [by left | done]. }
  apply IH. intros k' Hk'. apply Hks. by right.
Qed.

End JsObjFacts.

(** ** Running method bodies *)

Lemma bind_Return {A B : Type} (m : M A) (f : A → M B) h a h' :
  m h = (Return a, h') → (m ≫= f) h = f a h'.
Proof. intros Hm. unfold mbind, M_bind. by rewrite Hm. Qed.

Lemma bind_Throw {A B : Type} (m : M A) (f : A → M B) h e h' :
  m h = (Throw e, h') → (m ≫= f) h = (Throw e, h').
Proof. intros Hm. unfold mbind, M_bind. by rewrite Hm. Qed.

Lemma bind_lift {A B : Type} (o : outcome A) (f : A → M B) h :
  (lift o ≫= f) h = match o with Return a => f a h | Throw e => (Throw e, h) end.
Proof. by destruct o. Qed.

Lemma Throw_TypeError {A : Type} (e : error) : @Throw A e = Throw TypeError.
Proof. by destruct e. Qed.

Lemma heap_lookup_objects (h : heap) (r : ref) : h !! r = objects h !! r.
Proof. done. Qed.

Lemma run_deref h r n : h !! r = Some n → deref r h = (Return n, h).
Proof. intros Hr. unfold deref. by rewrite Hr. Qed.

Lemma run_deref_None h r : h !! r = None → deref r h = (Throw TypeError, h).
Proof. intros Hr. unfold deref. by rewrite Hr. Qed.

Lemma run_modify h r n f :
  h !! r = Some n → modify r f h = (Return (), set_node r (f n) h).
Proof. intros Hr. unfold modify. by rewrite Hr. Qed.

Lemma run_modify_None h r f : h !! r = None → modify r f h = (Throw TypeError, h).
Proof. intros Hr. unfold modify. by rewrite Hr. Qed.

Lemma lookup_set_node h r n r' :
  is_Some (h !! r) →
  set_node r n h !! r' = if decide (r = r') then Some n else h !! r'.
Proof.
  intros Hr. rewrite !heap_lookup_objects in *. simpl.
  apply lookup_lt_is_Some in Hr. case_decide as Hd.
  - subst. by apply list_lookup_insert_eq.
  - by apply list_lookup_insert_ne.
Qed.

Lemma set_node_twice h r n n' : set_node r n' (set_node r n h) = set_node r n' h.
Proof. unfold set_node; simpl. by rewrite list_insert_insert_eq. Qed.

(** A method that reads a field of [this] and computes its result from
    the record. *)
Lemma run_getter {A : Type} (f : CombineNode → M A) h r :
  (n ← deref r; f n) h
  = match h !! r with
    | Some n => f n h
    | None => (Throw TypeError, h)
    end.
Proof. unfold mbind, M_bind, deref. by destruct (h !! r). Qed.

Section Runs.
Context `{Host}.

Lemma run_getPropNS h r k :
  getPropNS r k h
  = (match h !! r with
     | Some n => Return (props_member n k)
     | None => Throw TypeError
     end, h).
Proof. unfold getPropNS. rewrite run_getter. by destruct (h !! r). Qed.

Lemma run_hasPropNS h r k :
  hasPropNS r k h
  = (match h !! r with
     | Some n => props_hasOwnProperty n k
     | None => Throw TypeError
     end, h).
Proof. unfold hasPropNS. rewrite run_getter. by destruct (h !! r). Qed.

Lemma run_getProp h r namespace k :
  getProp r namespace k h
  = (match h !! r with
     | Some n => getProp_of n namespace k
     | None => Throw TypeError
     end, h).
Proof.
  unfold getProp, mbind, M_bind. rewrite run_getPropNS. by destruct (h !! r).
Qed.

Lemma run_hasProp h r namespace k :
  hasProp r namespace k h
  = (match h !! r with
     | Some n => hasProp_of n namespace k
     | None => Throw TypeError
     end, h).
Proof.
  unfold hasProp, mbind, M_bind. rewrite run_hasPropNS.
  destruct (h !! r) as [n|] eqn:Hr; [|done].
  unfold hasProp_of. destruct (props_hasOwnProperty n namespace) as [[|]|e]; simpl; try done.
  rewrite run_getPropNS, Hr. done.
Qed.

Lemma run_getHtmlClass h r :
  getHtmlClass r h
  = (match h !! r with
     | Some n => Return (class_of n)
     | None => Throw TypeError
     end, h).
Proof. unfold getHtmlClass. rewrite run_getter. by destruct (h !! r). Qed.

Lemma run_getMixines h r :
  getMixines r h
  = (match h !! r with
     | Some n => Return (_mixins n)
     | None => Throw TypeError
     end, h).
Proof. unfold getMixines. rewrite run_getter. by destruct (h !! r). Qed.

Lemma run_getAllMixedNodes h r :
  getAllMixedNodes r h
  = (match h !! r with
     | Some n => Return (mixed_refs h r n)
     | None => Throw TypeError
     end, h).
Proof.
  unfold getAllMixedNodes, mbind, M_bind. rewrite run_getMixines.
  by destruct (h !! r).
Qed.

End Runs.

(** ** Loops over the mixed nodes *)

Lemma nodes_at_nil h : nodes_at h [] = Some [].
Proof. done. Qed.

Lemma nodes_at_cons h r rs :
  nodes_at h (r :: rs) = n ← h !! r; ns ← nodes_at h rs; Some (n :: ns).
Proof. done. Qed.

Lemma nodes_at_cons_Some h r rs n ns :
  h !! r = Some n → nodes_at h rs = Some ns → nodes_at h (r :: rs) = Some (n :: ns).
Proof. intros Hr Hrs. rewrite nodes_at_cons, Hr. simpl. by rewrite Hrs. Qed.

Lemma nodes_at_cons_inv h r rs ns :
  nodes_at h (r :: rs) = Some ns →
  ∃ n ns', ns = n :: ns' ∧ h !! r = Some n ∧ nodes_at h rs = Some ns'.
Proof.
  rewrite nodes_at_cons. destruct (h !! r) as [n|]; [|done]. simpl.
  destruct (nodes_at h rs) as [ns'|]; [|done]. simpl. intros [= <-]. eauto.
Qed.

Lemma nodes_at_app h rs1 rs2 ns1 ns2 :
  nodes_at h rs1 = Some ns1 → nodes_at h rs2 = Some ns2 →
  nodes_at h (rs1 ++ rs2) = Some (ns1 ++ ns2).
Proof.
  revert ns1. induction rs1 as [|r rs1 IH]; intros ns1; simpl.
  - by intros [= <-].
  - intros (n & ns' & -> & Hr & Hrs)%nodes_at_cons_inv H2.
    apply nodes_at_cons_Some; [done|]. by apply IH.
Qed.

Lemma nodes_at_app_inv h rs1 rs2 ns :
  nodes_at h (rs1 ++ rs2) = Some ns →
  ∃ ns1 ns2, ns = ns1 ++ ns2 ∧ nodes_at h rs1 = Some ns1 ∧ nodes_at h rs2 = Some ns2.
Proof.
  revert ns. induction rs1 as [|r rs1 IH]; intros ns; simpl.
  - intros Hns. by exists [], ns.
  - intros (n & ns' & -> & Hr & Hrs)%nodes_at_cons_inv.
    destruct (IH _ Hrs) as (ns1 & ns2 & -> & H1 & H2).
    exists (n :: ns1), ns2. split; [done|]. split; [|done].
    by apply nodes_at_cons_Some.
Qed.

Lemma nodes_at_Forall h rs :
  Forall (λ r, is_Some (h !! r)) rs → is_Some (nodes_at h rs).
Proof.
  induction 1 as [|r rs [n Hr] _ [ns Hns]]; [by eexists|].
  exists (n :: ns). by apply nodes_at_cons_Some.
Qed.

Lemma nodes_at_lookup h rs ns i r :
  nodes_at h rs = Some ns → rs !! i = Some r → ∃ n, ns !! i = Some n ∧ h !! r = Some n.
Proof.
  revert ns i. induction rs as [|r0 rs IH]; intros ns i; [done|].
  intros (n & ns' & -> & Hr & Hrs)%nodes_at_cons_inv.
  destruct i as [|i]; simpl.
  - intros [= <-]. eauto.
  - by apply IH.
Qed.

Lemma nodes_at_length h rs ns : nodes_at h rs = Some ns → length ns = length rs.
Proof.
  revert ns. induction rs as [|r0 rs IH]; intros ns.
  - by intros [= <-].
  - intros (n & ns' & -> & Hr & Hrs)%nodes_at_cons_inv. simpl. f_equal. by apply IH.
Qed.

Lemma fold_out_app {S A : Type} (f : S → A → outcome S) l1 l2 s :
  fold_out f (l1 ++ l2) s
  = match fold_out f l1 s with
    | Return s' => fold_out f l2 s'
    | Throw e => Throw e
    end.
Proof.
  revert s. induction l1 as [|x l1 IH]; intros s; simpl; [done|].
  destruct (f s x); [apply IH | done].
Qed.

(** A loop whose body reads the store through the node of each
    reference computes a fold over the records; it throws at a reference
    that is no node, if not before. *)
Lemma run_for_of {S : Type} (body : S → ref → M S) (f : S → CombineNode → outcome S)
    h rs s :
  (∀ s r,
     body s r h
     = (match h !! r with Some n => f s n | None => Throw TypeError end, h)) →
  for_of body rs s h
  = (match nodes_at h rs with
     | Some ns => fold_out f ns s
     | None => Throw TypeError
     end, h).
Proof.
  intros Hbody. revert s. induction rs as [|r rs IH]; intros s; simpl; [done|].
  unfold mbind, M_bind. rewrite Hbody, nodes_at_cons.
  destruct (h !! r) as [n|]; simpl; [|done].
  destruct (f s n) as [s'|e] eqn:Hf.
  - rewrite IH. destruct (nodes_at h rs) as [ns|]; simpl; [|done]. by rewrite Hf.
  - destruct (nodes_at h rs) as [ns|]; simpl; [by rewrite Hf|]. by rewrite Throw_TypeError.
Qed.

Lemma mixed_Some h r n ns :
  h !! r = Some n → nodes_at h (spread h (_mixins n)) = Some ns →
  mixed h r = Some (n :: ns).
Proof.
  intros Hr Hns. unfold mixed, mixed_refs. rewrite Hr. simpl.
  by apply nodes_at_cons_Some.
Qed.

Lemma mixed_inv h r ns :
  mixed h r = Some ns →
  ∃ n ns', ns = n :: ns' ∧ h !! r = Some n
           ∧ nodes_at h (spread h (_mixins n)) = Some ns'.
Proof.
  unfold mixed, mixed_refs. destruct (h !! r) as [n|] eqn:Hr; [|done]. simpl.
  intros (n' & ns' & -> & Hr' & Hrs)%nodes_at_cons_inv.
  exists n, ns'. split; [congruence|]. done.
Qed.

Section Loops.
Context `{Host}.

Lemma run_loop {A S : Type} (body : S → ref → M S) (f : S → CombineNode → outcome S)
    (k : S → M A) (s : S) h r :
  (∀ s r,
     body s r h
     = (match h !! r with Some n => f s n | None => Throw TypeError end, h)) →
  (nodes ← getAllMixedNodes r; s' ← for_of body nodes s; k s') h
  = match mixed h r with
    | Some ns =>
        match fold_out f ns s with
        | Return s' => k s' h
        | Throw e => (Throw e, h)
        end
    | None => (Throw TypeError, h)
    end.
Proof.
  intros Hbody. unfold mbind at 1, M_bind at 1. rewrite run_getAllMixedNodes.
  unfold mixed. destruct (h !! r) as [n|]; [|done]. cbn beta iota.
  unfold mbind, M_bind, option_bind. rewrite (run_for_of _ f) by done.
  destruct (nodes_at h (mixed_refs h r n)) as [ns|]; [|done].
  by destruct (fold_out f ns s).
Qed.

Lemma run_getHtmlTag h r :
  getHtmlTag r h
  = (match mixed h r with Some ns => html_tag ns | None => Throw TypeError end, h).
Proof.
  unfold getHtmlTag.
  transitivity
    ((nodes ← getAllMixedNodes r;
      s' ← for_of (λ tag node,
                     b ← hasProp node "html" "tag";
                     if (b : bool) then getProp node "html" "tag" else mret tag)
                  nodes (Prim (Str "div"));
      mret s') h).
  { unfold mbind, M_bind. destruct (getAllMixedNodes r h) as [[nodes|e] h']; [|done].
    by destruct (for_of _ nodes _ h') as [[?|?] ?]. }
  rewrite (run_loop _ tag_step).
  - unfold html_tag. destruct (mixed h r) as [ns|]; [|done].
    by destruct (fold_out tag_step ns _).
  - intros tag node. unfold mbind, M_bind. rewrite run_hasProp.
    destruct (h !! node) as [n|] eqn:Hn; [|done].
    unfold tag_step. destruct (hasProp_of n "html" "tag") as [[|]|e]; simpl; try done.
    by rewrite run_getProp, Hn.
Qed.

Lemma run_mixedRules h r :
  mixedRules r h
  = (match mixed h r with Some ns => merged_css ns | None => Throw TypeError end, h).
Proof.
  unfold mixedRules.
  transitivity
    ((nodes ← getAllMixedNodes r;
      s' ← for_of (λ rules node,
                     b ← hasPropNS node "css";
                     if (b : bool)
                     then ns ← getPropNS node "css";
                          mret (JsObj.assign rules (own_properties ns))
                     else mret rules)
                  nodes JsObj.empty;
      mret s') h).
  { unfold mbind, M_bind. destruct (getAllMixedNodes r h) as [[nodes|e] h']; [|done].
    by destruct (for_of _ nodes _ h') as [[?|?] ?]. }
  rewrite (run_loop _ css_step).
  - unfold merged_css. destruct (mixed h r) as [ns|]; [|done].
    by destruct (fold_out css_step ns _).
  - intros rules node. unfold mbind, M_bind. rewrite run_hasPropNS.
    destruct (h !! node) as [n|] eqn:Hn; [|done].
    unfold css_step. destruct (props_hasOwnProperty n "css") as [[|]|e]; simpl; try done.
    by rewrite run_getPropNS, Hn.
Qed.

Lemma run_getCssMixedRules h r :
  getCssMixedRules r h
  = (match mixed h r with Some ns => css_rules ns | None => Throw TypeError end, h).
Proof.
  unfold getCssMixedRules, mbind, M_bind. rewrite run_mixedRules.
  unfold css_rules. destruct (mixed h r) as [ns|]; [|done].
  by destruct (merged_css ns).
Qed.

Lemma fold_classes (ns : list CombineNode) (classes : list string) :
  fold_out (λ classes n, Return (classes ++ [class_of n])) ns classes
  = Return (classes ++ (class_of <$> ns)).
Proof.
  revert classes. induction ns as [|n ns IH]; intros classes; simpl.
  - by rewrite app_nil_r.
  - rewrite IH. by rewrite <- app_assoc.
Qed.

Lemma run_getHtmlMixedClass h r :
  getHtmlMixedClass r h
  = (match mixed h r with
     | Some ns => Return (mixed_class ns)
     | None => Throw TypeError
     end, h).
Proof.
  unfold getHtmlMixedClass.
  rewrite (run_loop _ (λ classes n, Return (classes ++ [class_of n]))).
  - destruct (mixed h r) as [ns|]; [|done]. by rewrite fold_classes.
  - intros classes node. unfold mbind, M_bind. rewrite run_getHtmlClass.
    by destruct (h !! node).
Qed.

(** The loop of [_getAttributesString] over the two keys. *)
Lemma run_attributes (class styles : string) h :
  (let attrs : obj := [("class", Str class); ("styles", Str styles)] in
   result ← for_of (λ result name,
                      len ← length_of (JsObj.read attrs name);
                      if bool_decide (0 < len)
                      then mret (result ++ [name +:+ "=" +:+ dquote
                                            +:+ to_string (JsObj.read attrs name)
                                            +:+ dquote])
                      else mret result)
                   (JsObj.keys attrs) [];
   mret (join " " result)) h
  = (Return (attributes_string class styles), h).
Proof.
  unfold attributes_string, attribute.
  change (JsObj.keys [("class", Str class); ("styles", Str styles)])
    with ["class"; "styles"].
  cbn [for_of]. unfold mbind, M_bind, mret, M_ret, JsObj.read. simpl.
  by destruct (bool_decide (0 < String.length class)),
    (bool_decide (0 < String.length styles)).
Qed.

Lemma run__getAttributesString h r :
  _getAttributesString r h
  = (match mixed h r with
     | Some ns =>
         match css_rules ns with
         | Return styles => Return (attributes_string (mixed_class ns) styles)
         | Throw e => Throw e
         end
     | None => Throw TypeError
     end, h).
Proof.
  unfold _getAttributesString. unfold mbind at 1, M_bind at 1.
  rewrite run_getHtmlMixedClass. destruct (mixed h r) as [ns|] eqn:Hns; [|done].
  unfold mbind at 1, M_bind at 1. rewrite run_getCssMixedRules, Hns.
  destruct (css_rules ns) as [styles|e]; [|done].
  apply run_attributes.
Qed.

Lemma run_getHtmlTagStart h r :
  getHtmlTagStart r h
  = (match mixed h r with
     | Some ns =>
         tag ← html_tag ns;
         match tag with
         | Prim v =>
             styles ← css_rules ns;
             Return ("<" +:+ to_string v +:+ " "
                     +:+ attributes_string (mixed_class ns) styles +:+ ">")
         | _ => Throw TypeError
         end
     | None => Throw TypeError
     end, h).
Proof.
  unfold getHtmlTagStart, mbind at 1, M_bind at 1. rewrite run_getHtmlTag.
  destruct (mixed h r) as [ns|] eqn:Hns; [|done].
  destruct (html_tag ns) as [[v|o|e]|e]; simpl; try done.
  unfold mbind, M_bind. simpl. rewrite run__getAttributesString, Hns.
  by destruct (css_rules ns).
Qed.

Lemma run_getHtmlTagEnd h r :
  getHtmlTagEnd r h
  = (match mixed h r with
     | Some ns =>
         tag ← html_tag ns;
         match tag with
         | Prim v => Return ("</" +:+ to_string v +:+ ">")
         | _ => Throw TypeError
         end
     | None => Throw TypeError
     end, h).
Proof.
  unfold getHtmlTagEnd, mbind at 1, M_bind at 1. rewrite run_getHtmlTag.
  destruct (mixed h r) as [ns|] eqn:Hns; [|done].
  by destruct (html_tag ns) as [[v|o|e]|e].
Qed.

End Loops.

(** ** What the methods that write do to the store *)

Lemma run_push h a items x :
  arrays h !! a = Some items → push a x h = (Return (), set_array a (items ++ [x]) h).
Proof. intros Ha. unfold push. by rewrite Ha. Qed.

Lemma run_push_None h a x : arrays h !! a = None → push a x h = (Throw TypeError, h).
Proof. intros Ha. unfold push. by rewrite Ha. Qed.

Lemma run_array_length h a :
  array_length a h
  = (match arrays h !! a with
     | Some items => Return (length items)
     | None => Throw TypeError
     end, h).
Proof. unfold array_length. by destruct (arrays h !! a). Qed.

Lemma lookup_set_array h a items r : set_array a items h !! r = h !! r.
Proof. done. Qed.

Lemma arrays_set_node h r n : arrays (set_node r n h) = arrays h.
Proof. done. Qed.

Lemma arrays_set_array h a items a' :
  is_Some (arrays h !! a) →
  arrays (set_array a items h) !! a' = if decide (a = a') then Some items else arrays h !! a'.
Proof.
  intros Ha%lookup_lt_is_Some. simpl. case_decide as Hd.
  - subst. by apply list_lookup_insert_eq.
  - by apply list_lookup_insert_ne.
Qed.

Lemma run_addChild h r x :
  addChild r x h
  = match h !! r with
    | Some n =>
        match arrays h !! _content n with
        | Some items => (Return (), set_array (_content n) (items ++ [x]) h)
        | None => (Throw TypeError, h)
        end
    | None => (Throw TypeError, h)
    end.
Proof.
  unfold addChild. rewrite run_getter. destruct (h !! r) as [n|]; [|done].
  unfold push. by destruct (arrays h !! _content n).
Qed.

Lemma run_addMixin h r x :
  addMixin r x h
  = match h !! r with
    | Some n =>
        match arrays h !! _mixins n with
        | Some items => (Return (), set_array (_mixins n) (items ++ [x]) h)
        | None => (Throw TypeError, h)
        end
    | None => (Throw TypeError, h)
    end.
Proof.
  unfold addMixin. rewrite run_getter. destruct (h !! r) as [n|]; [|done].
  unfold push. by destruct (arrays h !! _mixins n).
Qed.

Lemma run_setChilds h r a :
  setChilds r a h
  = match h !! r with
    | Some n => (Return (), set_node r (with_content (λ _, a) n) h)
    | None => (Throw TypeError, h)
    end.
Proof. unfold setChilds, modify. by destruct (h !! r). Qed.

Lemma run_addDirective h r k d :
  addDirective r k d h
  = match h !! r with
    | Some n =>
        (Return (),
         set_node r (with_directives (λ ds,
           if decide (k = "__proto__") then ds else <[k := d]> ds) n) h)
    | None => (Throw TypeError, h)
    end.
Proof. unfold addDirective, modify. by destruct (h !! r). Qed.

Section Writes.
Context `{Host}.

(** After the first statement of [setProp] the namespace is a plain
    object. *)
Lemma setProp_receiver (n : CombineNode) (namespace : string) :
  _props n !! namespace = None →
  props_member (create_namespace namespace n) namespace = Plain JsObj.empty.
Proof.
  intros Hn. unfold create_namespace, props_member. case_decide as Hd; simpl.
  - by rewrite Hn.
  - by rewrite lookup_insert_eq.
Qed.

(** [setProp] throws when [hasPropNS] does, and otherwise writes the one
    property. *)
Lemma run_setProp h r namespace k v :
  setProp r namespace k v h
  = match h !! r with
    | Some n =>
        match props_hasOwnProperty n namespace with
        | Return _ => (Return (), set_node r (set_prop namespace k v n) h)
        | Throw e => (Throw e, h)
        end
    | None => (Throw TypeError, h)
    end.
Proof.
  unfold setProp. unfold mbind at 1, M_bind at 1. rewrite run_hasPropNS.
  destruct (h !! r) as [n|] eqn:Hr; [|done].
  destruct (props_hasOwnProperty n namespace) as [b|e] eqn:Hb; [|done].
  assert (Hown : b = bool_decide (is_Some (_props n !! namespace))).
  { unfold props_hasOwnProperty in Hb. case_bool_decide; congruence. }
  destruct b; cbn [negb].
  - symmetry in Hown. apply bool_decide_eq_true in Hown as [o Ho].
    unfold mbind, M_bind, mret, M_ret. rewrite run_getPropNS, Hr.
    unfold props_member. rewrite Ho.
    rewrite (run_modify _ _ n) by done.
    unfold store_namespace, set_prop. by rewrite Ho.
  - symmetry in Hown. apply bool_decide_eq_false in Hown.
    assert (Ho : _props n !! namespace = None).
    { destruct (_props n !! namespace); [|done]. destruct Hown. by eexists. }
    unfold mbind, M_bind. rewrite (run_modify _ _ n) by done.
    rewrite run_getPropNS.
    rewrite lookup_set_node, decide_True by (by eexists || done).
    rewrite setProp_receiver by done.
    erewrite run_modify
      by (rewrite lookup_set_node, decide_True by (by eexists || done); done).
    rewrite set_node_twice. do 2 f_equal.
    unfold store_namespace, set_prop, create_namespace. rewrite Ho.
    case_decide as Hd; simpl.
    + by rewrite Ho.
    + rewrite lookup_insert_eq. unfold with_props; simpl.
      by rewrite insert_insert_eq.
Qed.

Lemma run_constructor c s h :
  constructor (String c s) h
  = (Return (length (objects h)),
     mkHeap
       (objects h
        ++ [mkNode (String c s)
              (if bool_decide (toLowerCase (String c "") ≠ String c "")
               then String c s else "")
              (if negb (bool_decide (toLowerCase (String c "") ≠ String c ""))
               then String c s else "")
              (bool_decide (toLowerCase (String c "") ≠ String c ""))
              (negb (bool_decide (toLowerCase (String c "") ≠ String c "")))
              ∅ None (length (arrays h)) (S (length (arrays h))) ∅])
       (arrays h ++ [[]; []])).
Proof.
  unfold constructor, mbind, M_bind, new_array, alloc; simpl.
  rewrite length_app, Nat.add_1_r, <- app_assoc. done.
Qed.

Lemma run_constructor_empty h : constructor "" h = (Throw TypeError, h).
Proof. done. Qed.

End Writes.

(** ** Frames: what a method leaves alone *)

Lemma readonly_then_unit {A : Type} (m : M A) : readonly m → readonly (m;; mret ()).
Proof.
  intros Hm h. specialize (Hm h). unfold mbind, M_bind.
  destruct (m h) as [[a|e] h']; simpl in *; done.
Qed.

Lemma readonly_twice {A : Type} (m : M A) h :
  readonly m → (m h).2 = h ∧ (m (m h).2).1 = (m h).1.
Proof. intros Hm. by rewrite !Hm. Qed.

Lemma readonly_getChilds r : readonly (getChilds r).
Proof. intros h. unfold getChilds. rewrite run_getter. by destruct (h !! r). Qed.

Lemma readonly_hasChilds r : readonly (hasChilds r).
Proof.
  intros h. unfold hasChilds. rewrite run_getter. destruct (h !! r) as [n|]; [|done].
  unfold mbind, M_bind. rewrite run_array_length. by destruct (arrays h !! _content n).
Qed.

Lemma readonly_emptyChilds r : readonly (emptyChilds r).
Proof.
  intros h. unfold emptyChilds. rewrite run_getter. destruct (h !! r) as [n|]; [|done].
  unfold mbind, M_bind. rewrite run_array_length. by destruct (arrays h !! _content n).
Qed.

Lemma readonly_hasDirective r k : readonly (hasDirective r k).
Proof.
  intros h. unfold hasDirective. rewrite run_getter. destruct (h !! r) as [n|]; [|done].
  by case_bool_decide.
Qed.

Lemma readonly_getDirectives r : readonly (getDirectives r).
Proof. intros h. unfold getDirectives. rewrite run_getter. by destruct (h !! r). Qed.

Lemma readonly_hasPropNS r k : readonly (hasPropNS r k).
Proof. intros h. by rewrite run_hasPropNS. Qed.

Section Frames.
Context `{Host}.

Lemma readonly_getDirective r k : readonly (getDirective r k).
Proof. intros h. unfold getDirective. rewrite run_getter. by destruct (h !! r). Qed.

Lemma readonly_getMixines r : readonly (getMixines r).
Proof. intros h. by rewrite run_getMixines. Qed.

Lemma readonly_getPropNS r k : readonly (getPropNS r k).
Proof. intros h. by rewrite run_getPropNS. Qed.

Lemma readonly_getProp r namespace k : readonly (getProp r namespace k).
Proof. intros h. by rewrite run_getProp. Qed.

Lemma readonly_hasProp r namespace k : readonly (hasProp r namespace k).
Proof. intros h. by rewrite run_hasProp. Qed.

Lemma readonly_getAllMixedNodes r : readonly (getAllMixedNodes r).
Proof. intros h. by rewrite run_getAllMixedNodes. Qed.

Lemma readonly_getHtmlTag r : readonly (getHtmlTag r).
Proof. intros h. by rewrite run_getHtmlTag. Qed.

Lemma readonly_mixedRules r : readonly (mixedRules r).
Proof. intros h. by rewrite run_mixedRules. Qed.

Lemma readonly_getCssMixedRules r : readonly (getCssMixedRules r).
Proof. intros h. by rewrite run_getCssMixedRules. Qed.

Lemma readonly_getHtmlClass r : readonly (getHtmlClass r).
Proof. intros h. by rewrite run_getHtmlClass. Qed.

Lemma readonly_getHtmlMixedClass r : readonly (getHtmlMixedClass r).
Proof. intros h. by rewrite run_getHtmlMixedClass. Qed.

Lemma readonly__getAttributesString r : readonly (_getAttributesString r).
Proof. intros h. by rewrite run__getAttributesString. Qed.

Lemma readonly_getHtmlTagStart r : readonly (getHtmlTagStart r).
Proof. intros h. by rewrite run_getHtmlTagStart. Qed.

Lemma readonly_getHtmlTagEnd r : readonly (getHtmlTagEnd r).
Proof. intros h. by rewrite run_getHtmlTagEnd. Qed.

Lemma perform_reads c h : reads c = true → (perform c h).2 = h.
Proof.
  destruct c; try done; intros _; simpl; apply readonly_then_unit.
  - apply readonly_getChilds.
  - apply readonly_hasChilds.
  - apply readonly_emptyChilds.
  - apply readonly_getMixines.
  - apply readonly_getDirective.
  - apply readonly_hasDirective.
  - apply readonly_getDirectives.
  - apply readonly_getPropNS.
  - apply readonly_hasPropNS.
  - apply readonly_getProp.
  - apply readonly_hasProp.
  - apply readonly_getAllMixedNodes.
  - apply readonly_getHtmlTag.
  - apply readonly_getCssMixedRules.
  - apply readonly_getHtmlClass.
  - apply readonly_getHtmlMixedClass.
  - apply readonly__getAttributesString.
  - apply readonly_getHtmlTagStart.
  - apply readonly_getHtmlTagEnd.
Qed.

End Frames.

(** ** The classification is written once *)

Section Classification.
Context `{Host}.

(** What a call does to the node records: nothing, or one record is
    replaced by a record with the same classification, or the record of
    a new node is added. *)
Lemma perform_objects c h :
  objects (perform c h).2 = objects h
  ∨ (∃ r n n', h !! r = Some n ∧ classification n' = classification n
               ∧ (perform c h).2 = set_node r n' h)
  ∨ (∃ n, classified n ∧ objects (perform c h).2 = objects h ++ [n]).
Proof.
  destruct (reads c) eqn:Hc.
  { left. by rewrite perform_reads. }
  destruct c; try done; unfold perform.
  - unfold mbind, M_bind. destruct name0 as [|a s].
    { left. by rewrite run_constructor_empty. }
    right; right. rewrite run_constructor. simpl.
    eexists. split; [|done]. unfold classified; simpl.
    by destruct (bool_decide _).
  - by left.
  - left. rewrite run_addChild. destruct (h !! this) as [n|]; [|done].
    by destruct (arrays h !! _content n).
  - rewrite run_setChilds. destruct (h !! this) as [n|] eqn:Hn; [|by left].
    right; left. do 3 eexists. split; [exact Hn|]. split; [|reflexivity]. done.
  - left. rewrite run_addMixin. destruct (h !! this) as [n|]; [|done].
    by destruct (arrays h !! _mixins n).
  - rewrite run_addDirective. destruct (h !! this) as [n|] eqn:Hn; [|by left].
    right; left. do 3 eexists. split; [exact Hn|]. split; [|reflexivity]. done.
  - rewrite run_setProp. destruct (h !! this) as [n|] eqn:Hn; [|by left].
    destruct (props_hasOwnProperty n namespace); [|by left].
    right; left. do 3 eexists. split; [exact Hn|]. split; [|reflexivity].
    unfold set_prop. destruct (_props n !! namespace); [done|]. by case_decide.
Qed.

Lemma perform_has_classification r c cl h :
  has_classification r cl h → has_classification r cl (perform c h).2.
Proof.
  intros (n & Hr & Hcl).
  destruct (perform_objects c h) as [Heq|[(r' & n0 & n' & Hr' & Hcl' & ->)|(n' & _ & Heq)]].
  - exists n. by rewrite heap_lookup_objects, Heq.
  - unfold has_classification.
    rewrite lookup_set_node by (by eexists). case_decide as Hd.
    + subst r'. exists n'. split; [done|]. congruence.
    + by exists n.
  - exists n. rewrite heap_lookup_objects, Heq. split; [|done].
    by apply lookup_app_l_Some.
Qed.

Lemma after_snoc cs c h : after (cs ++ [c]) h = (perform c (after cs h)).2.
Proof. unfold after. by rewrite foldl_app. Qed.

Lemma after_has_classification r cl cs h :
  has_classification r cl h → has_classification r cl (after cs h).
Proof.
  intros Hh. induction cs as [|c cs IH] using rev_ind; [done|].
  rewrite after_snoc. by apply perform_has_classification.
Qed.

Lemma perform_classified c h :
  Forall classified (objects h) → Forall classified (objects (perform c h).2).
Proof.
  intros Hh.
  destruct (perform_objects c h) as [->|[(r' & n0 & n' & Hr' & Hcl' & ->)|(n' & Hn' & ->)]].
  - done.
  - simpl. apply Forall_insert; [done|].
    assert (Hn0 : classified n0) by (by eapply Forall_lookup_1).
    unfold classification in Hcl'. unfold classified in *.
    injection Hcl' as -> -> -> -> ->. done.
  - apply Forall_app. split; [done|]. by constructor.
Qed.

Lemma reachable_classified h : reachable h → Forall classified (objects h).
Proof.
  intros [cs ->]. induction cs as [|c cs IH] using rev_ind; [by constructor|].
  rewrite after_snoc. by apply perform_classified.
Qed.

End Classification.

(** C4: a node made from a non-empty name is a block or an element and
    never both; a block has the name as its [blockName] and an empty
    [elementName], an element has the name as its [elementName] and an
    empty [blockName]; and whatever methods are called afterwards, on this
    or on any other node, the node keeps these fields. *)
Theorem C4_classification_is_fixed_at_construction `{Host} (nm : string) (h : heap) :
  nm ≠ "" →
  ∃ r n h',
    constructor nm h = (Return r, h')
    ∧ h' !! r = Some n
    ∧ name n = nm
    ∧ xorb (isBlock n) (isElement n) = true
    ∧ (isBlock n = true → blockName n = nm ∧ elementName n = "")
    ∧ (isElement n = true → elementName n = nm ∧ blockName n = "")
    ∧ ∀ cs, has_classification r (classification n) (after cs h').
Proof.
  intros Hnm. destruct nm as [|c s]; [done|].
  eexists _, _, _. split; [apply run_constructor|].
  assert (Hlook : ∀ n (ars : list (list ref)),
            mkHeap (objects h ++ [n]) ars !! length (objects h) = Some n).
  { intros n ars. rewrite heap_lookup_objects. simpl.
    by rewrite lookup_app_r, Nat.sub_diag. }
  split; [apply Hlook|].
  simpl. destruct (bool_decide _); simpl; repeat split; try done.
  all: intros cs; apply after_has_classification; eexists; split;
    [apply Hlook | done].
Qed.

(** ** Purity of the derived computations *)

(** C10: the derived computations only read.  Each of [getHtmlTag],
    [getCssMixedRules], [getHtmlClass], [getHtmlMixedClass],
    [_getAttributesString], [getHtmlTagStart] and [getHtmlTagEnd] leaves
    the whole store (the properties, children, mixins and directives of
    every node, and every array) as it was, and called again on the store
    it left it gives the same result. *)
Theorem C10_rendering_reads_only `{Host} (h : heap) (this : ref) :
  ((getHtmlTag this h).2 = h
   ∧ (getHtmlTag this (getHtmlTag this h).2).1 = (getHtmlTag this h).1)
  ∧ ((getCssMixedRules this h).2 = h
     ∧ (getCssMixedRules this (getCssMixedRules this h).2).1
       = (getCssMixedRules this h).1)
  ∧ ((getHtmlClass this h).2 = h
     ∧ (getHtmlClass this (getHtmlClass this h).2).1 = (getHtmlClass this h).1)
  ∧ ((getHtmlMixedClass this h).2 = h
     ∧ (getHtmlMixedClass this (getHtmlMixedClass this h).2).1
       = (getHtmlMixedClass this h).1)
  ∧ ((_getAttributesString this h).2 = h
     ∧ (_getAttributesString this (_getAttributesString this h).2).1
       = (_getAttributesString this h).1)
  ∧ ((getHtmlTagStart this h).2 = h
     ∧ (getHtmlTagStart this (getHtmlTagStart this h).2).1
       = (getHtmlTagStart this h).1)
  ∧ ((getHtmlTagEnd this h).2 = h
     ∧ (getHtmlTagEnd this (getHtmlTagEnd this h).2).1 = (getHtmlTagEnd this h).1).
Proof.
  repeat split;
    first [ apply readonly_getHtmlTag | apply readonly_getCssMixedRules
          | apply readonly_getHtmlClass | apply readonly_getHtmlMixedClass
          | apply readonly__getAttributesString | apply readonly_getHtmlTagStart
          | apply readonly_getHtmlTagEnd
          | by apply readonly_twice, readonly_getHtmlTag
          | by apply readonly_twice, readonly_getCssMixedRules
          | by apply readonly_twice, readonly_getHtmlClass
          | by apply readonly_twice, readonly_getHtmlMixedClass
          | by apply readonly_twice, readonly__getAttributesString
          | by apply readonly_twice, readonly_getHtmlTagStart
          | by apply readonly_twice, readonly_getHtmlTagEnd ].
Qed.

(** ** The class of one node *)

Lemma append_empty_r (s : string) : s +:+ "" = s.
Proof.
  induction s as [|c s IH]; [done|].
  change (String c (s +:+ "") = String c s). by f_equal.
Qed.

(** C7: on a node of a store that a program can build, [getHtmlClass]
    returns the kebab-cased [blockName] when the node is a block and, when
    it is an element, the separator ["__"] followed by the kebab-cased
    [elementName], the block part being empty ([Case.kebab] maps the empty
    string to itself); a node never contributes both parts. *)
Theorem C7_getHtmlClass_block_or_element `{Host} (h : heap) (this : ref) (n : CombineNode) :
  kebab "" = "" →
  reachable h →
  h !! this = Some n →
  (isBlock n = true →
     isElement n = false
     ∧ getHtmlClass this h = (Return (kebab (blockName n)), h))
  ∧ (isElement n = true →
     isBlock n = false ∧ blockName n = ""
     ∧ getHtmlClass this h = (Return ("__" +:+ kebab (elementName n)), h))
  ∧ (isBlock n = true ∨ isElement n = true).
Proof.
  intros Hk Hreach Hr.
  assert (Hn : classified n).
  { eapply Forall_lookup_1; [by apply reachable_classified | done]. }
  destruct Hn as (HE & Hb & He).
  rewrite run_getHtmlClass, Hr. unfold class_of.
  rewrite HE, Hb. destruct (isBlock n); simpl.
  - rewrite append_empty_r. repeat split; try done. by left.
  - rewrite Hk. repeat split; try done. by right.
Qed.

(** ** The button scenario *)

Lemma lookup_last os (n : CombineNode) l ars :
  mkHeap (os ++ n :: l) ars !! length os = Some n.
Proof. rewrite heap_lookup_objects. simpl. by apply list_lookup_middle. Qed.

Lemma set_node_last os (n n' : CombineNode) l ars :
  set_node (length os) n' (mkHeap (os ++ n :: l) ars) = mkHeap (os ++ n' :: l) ars.
Proof.
  unfold set_node; simpl. rewrite insert_app_r_alt by lia.
  by rewrite Nat.sub_diag.
Qed.

Lemma set_prop_mixins namespace k v n : _mixins (set_prop namespace k v n) = _mixins n.
Proof. unfold set_prop. destruct (_props n !! namespace); [done|]. by case_decide. Qed.

Lemma set_prop_content namespace k v n : _content (set_prop namespace k v n) = _content n.
Proof. unfold set_prop. destruct (_props n !! namespace); [done|]. by case_decide. Qed.

Lemma set_prop_directives namespace k v n :
  _directives (set_prop namespace k v n) = _directives n.
Proof. unfold set_prop. destruct (_props n !! namespace); [done|]. by case_decide. Qed.

Lemma set_prop_classification namespace k v n :
  classification (set_prop namespace k v n) = classification n.
Proof. unfold set_prop. destruct (_props n !! namespace); [done|]. by case_decide. Qed.

Section Button.
Context `{Host}.

Lemma run_setProp_here os n l ars namespace k v b :
  props_hasOwnProperty n namespace = Return b →
  setProp (length os) namespace k v (mkHeap (os ++ n :: l) ars)
  = (Return (), mkHeap (os ++ set_prop namespace k v n :: l) ars).
Proof.
  intros Hb. rewrite run_setProp, lookup_last, Hb. by rewrite set_node_last.
Qed.

Lemma run_addMixin_here os n l ars items l' m :
  _mixins n = length ars →
  addMixin (length os) m (mkHeap (os ++ n :: l) (ars ++ items :: l'))
  = (Return (), mkHeap (os ++ n :: l) (ars ++ (items ++ [m]) :: l')).
Proof.
  intros Hn. rewrite run_addMixin, lookup_last. simpl. rewrite Hn.
  rewrite list_lookup_middle by done.
  unfold set_array; simpl. rewrite insert_app_r_alt by lia.
  by rewrite Nat.sub_diag.
Qed.

Lemma run_constructor_block c s h :
  toLowerCase (String c "") ≠ String c "" →
  constructor (String c s) h
  = (Return (length (objects h)),
     mkHeap (objects h
             ++ [mkNode (String c s) (String c s) "" true false
                        ∅ None (length (arrays h)) (S (length (arrays h))) ∅])
            (arrays h ++ [[]; []])).
Proof. intros Hc. by rewrite run_constructor, bool_decide_true. Qed.

Lemma run_constructor_element c s h :
  toLowerCase (String c "") = String c "" →
  constructor (String c s) h
  = (Return (length (objects h)),
     mkHeap (objects h
             ++ [mkNode (String c s) "" (String c s) false true
                        ∅ None (length (arrays h)) (S (length (arrays h))) ∅])
            (arrays h ++ [[]; []])).
Proof.
  intros Hc. rewrite run_constructor, bool_decide_false; [done|]. by intros ?.
Qed.

Lemma run_button_scenario h0 :
  toLowerCase "B" ≠ "B" →
  toLowerCase "d" = "d" →
  button_scenario h0 = (Return (length (objects h0)), button_heap h0).
Proof.
  intros HB Hd. unfold button_scenario.
  erewrite bind_Return by (by apply run_constructor_block).
  erewrite bind_Return by (by eapply run_setProp_here).
  erewrite bind_Return by (by eapply run_setProp_here).
  erewrite bind_Return by (by apply run_constructor_element).
  simpl objects. simpl arrays. rewrite <- !app_assoc. simpl app.
  replace (arrays h0 ++ [[]; []; []; []])
    with ((arrays h0 ++ [[]]) ++ ([] : list ref) :: [[]; []])
    by (by rewrite <- app_assoc).
  erewrite bind_Return.
  2:{ apply (run_addMixin_here _ _ _ (arrays h0 ++ [[]])).
      rewrite !set_prop_mixins, length_app. simpl. lia. }
  unfold mret, M_ret, button_heap. f_equal.
  rewrite !length_app. simpl. rewrite !Nat.add_1_r, <- !app_assoc. simpl.
  rewrite (Nat.add_comm _ 2). simpl. done.
Qed.

Lemma mixed_button_scenario h0 :
  mixed (button_heap h0) (length (objects h0))
  = Some [button_node (length (arrays h0)); disabled_node (length (arrays h0))].
Proof.
  unfold button_heap.
  erewrite mixed_Some; [done|apply lookup_last|].
  unfold spread. simpl _mixins. simpl arrays.
  rewrite lookup_app_r by lia.
  replace (S (length (arrays h0)) - length (arrays h0)) with 1 by lia. simpl.
  erewrite nodes_at_cons_Some; [done| |done].
  rewrite heap_lookup_objects. simpl. rewrite lookup_app_r by lia.
  by replace (S (length (objects h0)) - length (objects h0)) with 1 by lia.
Qed.

Lemma html_tag_button k :
  html_tag [button_node k; disabled_node k] = Return (Prim (Str "button")).
Proof. reflexivity. Qed.

Lemma merged_css_button k :
  merged_css [button_node k; disabled_node k] = Return [("backgroundColor", Str "red")].
Proof. reflexivity. Qed.

Lemma mixed_class_button k :
  kebab "" = "" → kebab "Button" = "button" → kebab "disabled" = "disabled" →
  mixed_class [button_node k; disabled_node k] = "button __disabled".
Proof.
  intros Hk0 Hk1 Hk2. unfold mixed_class, class_of. simpl.
  by rewrite Hk0, Hk1, Hk2.
Qed.

Lemma css_rules_button k :
  kebab "backgroundColor" = "background-color" →
  css_rules [button_node k; disabled_node k] = Return "background-color:red".
Proof.
  intros Hk3. unfold css_rules. rewrite merged_css_button.
  unfold cssRuleList.
  change (JsObj.keys [("backgroundColor", Str "red")]) with ["backgroundColor"].
  simpl. by rewrite Hk3.
Qed.

End Button.

(** C3: a block [Button] with [("html", "tag")] set to [button] and
    [("css", "backgroundColor")] set to [red], and an element [disabled]
    without properties mixed into it: [getHtmlTag] returns [button],
    [getHtmlMixedClass] returns [button __disabled] and [getCssMixedRules]
    returns [background-color:red].  The hypotheses say what the host
    functions return on the strings of the scenario. *)
Theorem C3_button_scenario `{Host} (h0 : heap) :
  toLowerCase "B" ≠ "B" →
  toLowerCase "d" = "d" →
  kebab "" = "" →
  kebab "Button" = "button" →
  kebab "disabled" = "disabled" →
  kebab "backgroundColor" = "background-color" →
  ∃ button h,
    button_scenario h0 = (Return button, h)
    ∧ getHtmlTag button h = (Return (Prim (Str "button")), h)
    ∧ getHtmlMixedClass button h = (Return "button __disabled", h)
    ∧ getCssMixedRules button h = (Return "background-color:red", h).
Proof.
  intros HB Hd Hk0 Hk1 Hk2 Hk3.
  eexists _, _. split; [by apply run_button_scenario|].
  rewrite run_getHtmlTag, run_getHtmlMixedClass, run_getCssMixedRules,
    mixed_button_scenario.
  split; [|split].
  - by rewrite html_tag_button.
  - by rewrite mixed_class_button.
  - by rewrite css_rules_button.
Qed.

(** ** The attribute string *)

(** C1: on the button scenario the attribute string is
    [class=<q>button __disabled<q> styles=<q>background-color:red<q>],
    where [<q>] is the double quote: the two pairs are in the order class
    then rules and are joined by one space, and the key under which the
    css rules are emitted is [styles].  The hypotheses say what the host
    functions return on the strings of the scenario. *)
Theorem C1_css_rules_are_emitted_under_styles `{Host} (h0 : heap) :
  toLowerCase "B" ≠ "B" →
  toLowerCase "d" = "d" →
  kebab "" = "" →
  kebab "Button" = "button" →
  kebab "disabled" = "disabled" →
  kebab "backgroundColor" = "background-color" →
  ∃ button h,
    button_scenario h0 = (Return button, h)
    ∧ _getAttributesString button h
      = (Return ("class=" +:+ dquote +:+ "button __disabled" +:+ dquote +:+ " "
                 +:+ "styles=" +:+ dquote +:+ "background-color:red" +:+ dquote),
         h).
Proof.
  intros HB Hd Hk0 Hk1 Hk2 Hk3.
  eexists _, _. split; [by apply run_button_scenario|].
  rewrite run__getAttributesString, mixed_button_scenario.
  rewrite css_rules_button, mixed_class_button by done. done.
Qed.

(** ** Observations and the records behind them *)

Lemma props_hasOwnProperty_Return n k b :
  props_hasOwnProperty n k = Return b
  ↔ unshadowed n ∧ b = bool_decide (is_Some (_props n !! k)).
Proof.
  unfold props_hasOwnProperty. case_bool_decide; split.
  - intros [= <-]. done.
  - by intros [_ ->].
  - done.
  - by intros [? _].
Qed.

Lemma props_hasOwnProperty_Throw n k e :
  props_hasOwnProperty n k = Throw e ↔ ¬ unshadowed n.
Proof.
  unfold props_hasOwnProperty. case_bool_decide; split; try done.
  intros _. by destruct e.
Qed.

Lemma props_hasOwnProperty_unshadowed n k :
  unshadowed n →
  props_hasOwnProperty n k = Return (bool_decide (is_Some (_props n !! k))).
Proof. intros Hn. by apply props_hasOwnProperty_Return. Qed.

(** [hasPropNS] answers the same way for every name. *)
Lemma props_hasOwnProperty_any n k k' b :
  props_hasOwnProperty n k = Return b → ∃ b', props_hasOwnProperty n k' = Return b'.
Proof.
  intros [Hn _]%props_hasOwnProperty_Return. eexists.
  by apply props_hasOwnProperty_unshadowed.
Qed.

Section Observed.
Context `{Host}.

Lemma props_member_own n k o : _props n !! k = Some o → props_member n k = Plain o.
Proof. intros Ho. unfold props_member. by rewrite Ho. Qed.

Lemma hasProp_of_true n namespace k :
  hasProp_of n namespace k = Return true
  ↔ unshadowed n
    ∧ ∃ o, _props n !! namespace = Some o
           ∧ JsObj.get o "hasOwnProperty" = None
           ∧ is_Some (JsObj.get o k).
Proof.
  unfold hasProp_of, props_hasOwnProperty. case_bool_decide as Hn; simpl.
  2:{ split; [done|]. by intros [? _]. }
  unfold props_member. destruct (_props n !! namespace) as [o|] eqn:Ho.
  - rewrite bool_decide_true by (by eexists). simpl.
    unfold JsObj.hasOwnProperty. case_bool_decide as Hs; split.
    + intros [= Hk%bool_decide_eq_true]. split; [done|]. by exists o.
    + intros (_ & o' & [= <-] & _ & Hk). by rewrite bool_decide_true.
    + done.
    + intros (_ & o' & [= <-] & ? & _). done.
  - rewrite bool_decide_false by (by intros [? ?]). simpl. split; [done|].
    by intros (_ & o & ? & _).
Qed.


Lemma getProp_of_own n namespace k o v :
  _props n !! namespace = Some o → JsObj.get o k = Some v →
  getProp_of n namespace k = Return (Prim v).
Proof.
  intros Ho Hk. unfold getProp_of. rewrite (props_member_own _ _ _ Ho).
  simpl. unfold member_plain. by rewrite Hk.
Qed.

(** What [hasProp] finds, [getProp] returns: a stored value. *)
Lemma hasProp_of_getProp_of n namespace k :
  hasProp_of n namespace k = Return true →
  ∃ v, prop_of namespace k n = Some v ∧ getProp_of n namespace k = Return (Prim v).
Proof.
  intros (_ & o & Ho & _ & [v Hv])%hasProp_of_true. exists v. split.
  - unfold prop_of. by rewrite Ho.
  - by eapply getProp_of_own.
Qed.

Lemma has_value_node h r namespace k v :
  has_value h r namespace k v
  ↔ ∃ n, h !! r = Some n
         ∧ hasProp_of n namespace k = Return true
         ∧ getProp_of n namespace k = Return (Prim v).
Proof.
  unfold has_value. rewrite run_hasProp, run_getProp.
  destruct (h !! r) as [n|]; split.
  - intros [[= ?] [= ?]]. by exists n.
  - intros (n' & [= <-] & -> & ->). done.
  - by intros [[=] _].
  - by intros (? & [=] & _).
Qed.





Lemma has_css_node h r o :
  has_css h r o ↔ ∃ n, h !! r = Some n ∧ unshadowed n ∧ _props n !! "css" = Some o.
Proof.
  unfold has_css. rewrite run_hasPropNS, run_getPropNS.
  destruct (h !! r) as [n|]; split.
  - intros [[= Hb] [= Hm]]. exists n. split; [done|].
    apply props_hasOwnProperty_Return in Hb as [Hn Hb]. split; [done|].
    symmetry in Hb. apply bool_decide_eq_true in Hb as [o' Ho'].
    rewrite (props_member_own _ _ _ Ho') in Hm. congruence.
  - intros (n' & [= <-] & Hn & Ho).
    rewrite (props_member_own _ _ _ Ho), props_hasOwnProperty_unshadowed by done.
    rewrite bool_decide_true by (by eexists). done.
  - by intros [[=] _].
  - by intros (? & [=] & _).
Qed.

Lemma no_css_node h r :
  no_css h r ↔ ∃ n, h !! r = Some n ∧ unshadowed n ∧ _props n !! "css" = None.
Proof.
  unfold no_css. rewrite run_hasPropNS.
  destruct (h !! r) as [n|]; split.
  - intros [= Hb]. exists n. split; [done|].
    apply props_hasOwnProperty_Return in Hb as [Hn Hb]. split; [done|].
    symmetry in Hb. apply bool_decide_eq_false in Hb.
    destruct (_props n !! "css"); [|done]. destruct Hb. by eexists.
  - intros (n' & [= <-] & Hn & Ho).
    rewrite props_hasOwnProperty_unshadowed, Ho by done.
    rewrite bool_decide_false by (by intros [? ?]). done.
  - by intros [=].
  - by intros (? & [=] & _).
Qed.

(** The receiver of [hasOwnProperty] in [hasProp], and the source of
    [Object.assign] in [getCssMixedRules], is a namespace object. *)
Lemma hasPropNS_receiver h r namespace :
  hasPropNS r namespace h = (Return true, h) →
  ∃ o, getPropNS r namespace h = (Return (Plain o), h).
Proof.
  rewrite run_hasPropNS, run_getPropNS. destruct (h !! r) as [n|]; [|done].
  intros [= [_ Hb]%props_hasOwnProperty_Return].
  symmetry in Hb. apply bool_decide_eq_true in Hb as [o Ho].
  exists o. by rewrite (props_member_own _ _ _ Ho).
Qed.

(** ** The tag: the last mixed node that sets it *)





(** [getHtmlTag] returns the default or a stored value. *)
Lemma html_tag_primitive ns x : html_tag ns = Return x → ∃ v, x = Prim v.
Proof.
  unfold html_tag. generalize (Str "div"). revert x.
  induction ns as [|n ns IH]; intros x v0; simpl.
  - intros [= <-]. by eexists.
  - unfold tag_step at 1. destruct (hasProp_of n "html" "tag") as [[|]|e] eqn:Hh; simpl.
    + destruct (hasProp_of_getProp_of _ _ _ Hh) as (v & _ & ->). apply IH.
    + apply IH.
    + done.
Qed.

Lemma getHtmlTag_primitive h r x h' :
  getHtmlTag r h = (Return x, h') → ∃ v, x = Prim v.
Proof.
  rewrite run_getHtmlTag. destruct (mixed h r) as [ns|]; [|done].
  intros [= Hx _]. by eapply html_tag_primitive.
Qed.

End Observed.

(** ** Loops, read through the references *)

Lemma run_refs_nil {S : Type} (f : S → CombineNode → outcome S) h s :
  run_refs f h [] s = Return s.
Proof. done. Qed.



Lemma run_refs_Throw {S : Type} (f : S → CombineNode → outcome S) h rs s e :
  run_refs f h rs s = Throw e → run_refs f h rs s = Throw TypeError.
Proof. intros ->. by rewrite Throw_TypeError. Qed.

Section Tag.
Context `{Host}.






End Tag.


(** ** Rendering the tag *)

(** C9 (amended): on a node on which [getHtmlTag] and
    [_getAttributesString] return, [getHtmlTagStart] is ["<"], the tag,
    one space, the attribute string and [">"]; the space is there
    whatever the attribute string is, so an empty attribute string leaves
    a space before [">"].  [getHtmlTagEnd] is ["</"], the same tag and
    [">"].  When [getHtmlTag] throws, both throw; when
    [_getAttributesString] throws, [getHtmlTagStart] throws. *)
Theorem C9_tag_start_and_end `{Host} (h : heap) (this : ref) :
  (∀ tag attrs,
     getHtmlTag this h = (Return tag, h) →
     _getAttributesString this h = (Return attrs, h) →
     ∃ v, tag = Prim v
       ∧ getHtmlTagStart this h
         = (Return ("<" +:+ to_string v +:+ " " +:+ attrs +:+ ">"), h)
       ∧ (attrs = "" →
          getHtmlTagStart this h = (Return ("<" +:+ to_string v +:+ " >"), h))
       ∧ getHtmlTagEnd this h = (Return ("</" +:+ to_string v +:+ ">"), h))
  ∧ (getHtmlTag this h = (Throw TypeError, h) →
     getHtmlTagStart this h = (Throw TypeError, h)
     ∧ getHtmlTagEnd this h = (Throw TypeError, h))
  ∧ (_getAttributesString this h = (Throw TypeError, h) →
     getHtmlTagStart this h = (Throw TypeError, h)).
Proof.
  rewrite run_getHtmlTag, run__getAttributesString, run_getHtmlTagStart,
    run_getHtmlTagEnd.
  destruct (mixed h this) as [ns|]; [|by repeat split].
  split; [|split].
  - intros tag attrs [= Htag] Hattrs.
    destruct (html_tag_primitive _ _ Htag) as [v ->]. exists v. split; [done|].
    rewrite Htag. simpl.
    destruct (css_rules ns) as [styles|e]; [|done]. injection Hattrs as <-.
    split; [done|]. split; [|done]. intros Ha.
    unfold mbind, outcome_bind. by rewrite Ha.
  - intros [= ->]. done.
  - destruct (css_rules ns) as [styles|e]; [done|]. intros _.
    destruct (html_tag ns) as [[v|o|x]|e']; simpl; by rewrite ?Throw_TypeError.
Qed.

(** ** Property access *)

Section Access.
Context `{Host}.

Lemma hasProp_of_unshadowed n namespace k :
  unshadowed n →
  hasProp_of n namespace k
  = match _props n !! namespace with
    | Some o =>
        if bool_decide (JsObj.get o "hasOwnProperty" = None)
        then Return (JsObj.hasOwnProperty o k)
        else Throw TypeError
    | None => Return false
    end.
Proof.
  intros Hn. unfold hasProp_of. rewrite props_hasOwnProperty_unshadowed by done.
  destruct (_props n !! namespace) as [o|] eqn:Ho.
  - rewrite bool_decide_true by (by eexists). simpl.
    by rewrite (props_member_own _ _ _ Ho).
  - rewrite bool_decide_false by (by intros [? ?]). done.
Qed.

Lemma hasProp_of_shadowed n namespace k :
  ¬ unshadowed n → hasProp_of n namespace k = Throw TypeError.
Proof.
  intros Hn. unfold hasProp_of.
  by rewrite (proj2 (props_hasOwnProperty_Throw n namespace TypeError) Hn).
Qed.


Lemma unshadowed_set_prop n namespace k v :
  unshadowed n → namespace ≠ "__proto__" → namespace ≠ "hasOwnProperty" →
  unshadowed (set_prop namespace k v n).
Proof.
  intros [Hn1 Hn2] Hp Hs. unfold set_prop, unshadowed.
  destruct (_props n !! namespace) as [o|]; [|rewrite decide_False by done]; simpl;
    by rewrite lookup_insert_ne.
Qed.

Lemma props_set_prop n namespace k v :
  namespace ≠ "__proto__" →
  _props (set_prop namespace k v n) !! namespace
  = Some (JsObj.write (default JsObj.empty (_props n !! namespace)) k v).
Proof.
  intros Hp. unfold set_prop.
  destruct (_props n !! namespace) as [o|]; [|rewrite decide_False by done]; simpl;
    by rewrite lookup_insert_eq.
Qed.

Lemma props_set_prop_ne n namespace k v namespace' :
  namespace ≠ namespace' →
  _props (set_prop namespace k v n) !! namespace' = _props n !! namespace'.
Proof.
  intros Hne. unfold set_prop.
  destruct (_props n !! namespace) as [o|]; [|case_decide]; simpl;
    by rewrite ?lookup_insert_ne.
Qed.

End Access.


(** ** Merging css namespaces *)

Lemma prop_of_css k n :
  prop_of "css" k n = (_props n !! "css") ≫= (λ o, JsObj.get o k).
Proof. done. Qed.

(** A key keeps its value through a merge of namespaces that either lack
    the key or hold the same value under it. *)
Lemma get_merge_stable (l : list (option obj)) acc k v :
  k ≠ "__proto__" →
  JsObj.get acc k = Some v →
  Forall (λ s, s ≫= (λ o, JsObj.get o k) = None ∨ s ≫= (λ o, JsObj.get o k) = Some v) l →
  JsObj.get (foldl JsObj.assign acc l) k = Some v.
Proof.
  intros Hk Hacc Hl. revert acc Hacc.
  induction Hl as [|s l Hs _ IH]; intros acc Hacc; simpl; [done|].
  apply IH. rewrite JsObjFacts.get_assign_opt by done. by destruct Hs as [-> | ->].
Qed.

(** A namespace whose properties the object already holds can be left out
    of the merge. *)
Lemma merge_skip (l1 l2 : list (option obj)) (s : option obj) acc :
  (∀ k v, k ≠ "__proto__" → s ≫= (λ o, JsObj.get o k) = Some v →
          JsObj.get (foldl JsObj.assign acc l1) k = Some v) →
  foldl JsObj.assign acc (l1 ++ s :: l2) = foldl JsObj.assign acc (l1 ++ l2).
Proof.
  intros Hs. rewrite !foldl_app. simpl. f_equal.
  destruct s as [o|]; [|done]. by apply JsObjFacts.assign_id.
Qed.

Lemma get_merged_last (pre post : list (option obj)) s acc k v :
  k ≠ "__proto__" →
  s ≫= (λ o, JsObj.get o k) = Some v →
  Forall (λ s, s ≫= (λ o, JsObj.get o k) = None) post →
  JsObj.get (foldl JsObj.assign acc (pre ++ s :: post)) k = Some v.
Proof.
  intros Hk Hs Hpost. rewrite foldl_app. simpl. apply get_merge_stable; [done| |].
  - by rewrite JsObjFacts.get_assign_opt, Hs.
  - eapply Forall_impl; [exact Hpost|]. intros s' Hs'. by left.
Qed.

Section Rules.
Context `{Host}.

Lemma css_step_eq rules n :
  css_step rules n
  = if bool_decide (unshadowed n)
    then Return (JsObj.assign rules (_props n !! "css"))
    else Throw TypeError.
Proof.
  unfold css_step, props_hasOwnProperty. case_bool_decide; [|done]. simpl.
  destruct (_props n !! "css") as [o|] eqn:Ho.
  - rewrite bool_decide_true by (by eexists).
    by rewrite (props_member_own _ _ _ Ho).
  - rewrite bool_decide_false by (by intros [? ?]). done.
Qed.

Lemma fold_css ns acc :
  fold_out css_step ns acc
  = if bool_decide (Forall unshadowed ns)
    then Return (foldl JsObj.assign acc (css_sources ns))
    else Throw TypeError.
Proof.
  revert acc. induction ns as [|n ns IH]; intros acc; cbn [fold_out].
  - by rewrite bool_decide_true.
  - rewrite css_step_eq. destruct (decide (unshadowed n)) as [Hn|Hn].
    + rewrite (bool_decide_true (unshadowed n)) by done. rewrite IH.
      destruct (decide (Forall unshadowed ns)) as [Hns|Hns].
      * rewrite !bool_decide_true; [done | by constructor | done].
      * rewrite !bool_decide_false; [done | by intros [_ ?]%Forall_cons | done].
    + rewrite !bool_decide_false; [done | by intros [? _]%Forall_cons | done].
Qed.

Lemma merged_css_Return ns rules :
  merged_css ns = Return rules
  ↔ Forall unshadowed ns ∧ rules = foldl JsObj.assign JsObj.empty (css_sources ns).
Proof.
  unfold merged_css. rewrite fold_css. case_bool_decide; split.
  - by intros [= <-].
  - by intros [_ ->].
  - done.
  - by intros [? _].
Qed.

Lemma merged_css_unshadowed ns :
  Forall unshadowed ns →
  merged_css ns = Return (foldl JsObj.assign JsObj.empty (css_sources ns)).
Proof. intros Hns. by apply merged_css_Return. Qed.


(** A key of the merged object is rendered as one rule. *)
Lemma rule_in_list rules k v :
  JsObj.get rules k = Some v →
  kebab k +:+ ":" +:+ to_string v ∈ cssRuleList rules.
Proof.
  intros Hk. unfold cssRuleList. apply list_elem_of_fmap. exists k. split.
  - unfold JsObj.read. by rewrite Hk.
  - apply JsObjFacts.elem_of_keys. by eexists.
Qed.


Lemma getAllMixedNodes_mixed_inv h r ns :
  mixed h r = Some ns →
  ∃ rs, getAllMixedNodes r h = (Return rs, h) ∧ nodes_at h rs = Some ns.
Proof.
  rewrite run_getAllMixedNodes. unfold mixed.
  destruct (h !! r) as [n|]; [|done]. simpl. intros Hns. by eexists.
Qed.

End Rules.


(** ** Leaving a duplicate out of the mixin list *)

Lemma nodes_at_Forall2 h rs ns :
  nodes_at h rs = Some ns ↔ Forall2 (λ r n, h !! r = Some n) rs ns.
Proof.
  unfold nodes_at. by rewrite mapM_Some.
Qed.

Lemma nodes_at_objects h h' rs : objects h' = objects h → nodes_at h' rs = nodes_at h rs.
Proof.
  intros Ho. unfold nodes_at. apply mapM_ext. intros r.
  by rewrite !heap_lookup_objects, Ho.
Qed.

Lemma spread_set_array h a items :
  is_Some (arrays h !! a) → spread (set_array a items h) a = items.
Proof.
  intros Ha. unfold spread. by rewrite arrays_set_array, decide_True.
Qed.

Lemma spread_array h a items : arrays h !! a = Some items → spread h a = items.
Proof. intros Ha. unfold spread. by rewrite Ha. Qed.

(** C6 (amended): a mixin [d] that carries the same css properties as the
    node itself (the node itself, mixed in again, is one) can be left out
    of the array of mixins without changing the rule string that
    [getCssMixedRules] returns, provided no mixin that comes before [d]
    sets one of these keys to another value.  In particular this holds
    when [d] is the first mixin. *)
Theorem C6_css_merge_idempotent_unless_overridden `{Host}
    (h : heap) (a d : ref) (mixins : aref) (pre post : list ref) (rules : string) :
  getMixines a h = (Return mixins, h) →
  arrays h !! mixins = Some (pre ++ d :: post) →
  same_css h a d →
  Forall (λ m, agrees_with h m d) pre →
  getCssMixedRules a h = (Return rules, h) →
  getCssMixedRules a (set_array mixins (pre ++ post) h)
  = (Return rules, set_array mixins (pre ++ post) h).
Proof.
  rewrite run_getMixines. destruct (h !! a) as [A|] eqn:HA; [|done].
  intros [= <-] Harr Hsame Hpre.
  rewrite !run_getCssMixedRules. unfold mixed, mixed_refs.
  rewrite lookup_set_array, HA. simpl.
  rewrite spread_set_array by (by eexists).
  rewrite (spread_array _ _ _ Harr).
  rewrite (nodes_at_objects h (set_array _ _ h)) by done.
  destruct (nodes_at h (a :: pre ++ d :: post)) as [ns|] eqn:Hns; [|done].
  apply nodes_at_cons_inv in Hns as (A' & ns1 & -> & HA' & Hns). simplify_eq.
  apply nodes_at_app_inv in Hns as (npre & ns2 & -> & Hnpre & Hns).
  apply nodes_at_cons_inv in Hns as (D & npost & -> & HD & Hnpost).
  erewrite nodes_at_cons_Some; [|done|by apply nodes_at_app].
  unfold css_rules.
  destruct (merged_css (A :: npre ++ D :: npost)) as [r0|] eqn:Hr0; [|done].
  apply merged_css_Return in Hr0 as [Hu ->]. simpl. intros [= <-].
  assert (Hu' : Forall unshadowed (A :: npre ++ npost)).
  { apply Forall_cons in Hu as [HuA Hu]. apply Forall_app in Hu as [Hu1 Hu2].
    apply Forall_cons in Hu2 as [_ Hu2].
    apply Forall_cons. split; [done|]. apply Forall_app. by split. }
  rewrite (merged_css_unshadowed _ Hu'). simpl. do 4 f_equal.
  unfold css_sources. rewrite !fmap_app, fmap_cons.
  symmetry.
  apply merge_skip. intros k v Hk Hv.
  destruct Hsame as [[_ Hd]|(o & o' & Ha & Hd & Hoo)].
  { apply no_css_node in Hd as (D' & HD' & _ & Hnone). simplify_eq.
    by rewrite Hnone in Hv. }
  apply has_css_node in Ha as (A' & HA' & _ & HoA).
  apply has_css_node in Hd as (D' & HD' & _ & HoD). simplify_eq.
  rewrite HoD in Hv. simpl in Hv.
  apply get_merge_stable; [done| |].
  - rewrite HoA, JsObjFacts.get_assign by done. by rewrite Hoo, Hv.
  - apply Forall_fmap. apply nodes_at_Forall2 in Hnpre.
    clear Harr Hu Hu'. revert Hpre.
    induction Hnpre as [|m M pre npre HM _ IH]; intros Hpre; [done|].
    apply Forall_cons in Hpre as [Hm Hpre].
    constructor; [|by apply IH]. simpl.
    destruct Hm as [Hm|[Hd|(o1 & o2 & Hm & Hd & Hag)]].
    + apply no_css_node in Hm as (M' & HM' & _ & Hnone). simplify_eq.
      rewrite Hnone. by left.
    + apply no_css_node in Hd as (D2 & HD2 & _ & Hnone). simplify_eq.
    + apply has_css_node in Hm as (M' & HM' & _ & HoM).
      apply has_css_node in Hd as (D2 & HD2 & _ & HoD2). simplify_eq.
      rewrite HoM. simpl. by apply Hag.
Qed.

(** ** The attribute string, in general *)

Lemma length_pos_iff (s : string) : 0 < String.length s ↔ s ≠ "".
Proof. destruct s; simpl; split; try done; lia. Qed.

(** X8: the attribute string is made of the result [c] of
    [getHtmlMixedClass] under the key [class] and the result [s] of
    [getCssMixedRules] under the key [styles], in this order: both pairs
    separated by one space when both values are non-empty, the one pair
    whose value is non-empty when the other is empty, and the empty string
    when both are empty. *)
Theorem X8_attribute_string_omits_empty_values `{Host}
    (h : heap) (this : ref) (c s : string) :
  getHtmlMixedClass this h = (Return c, h) →
  getCssMixedRules this h = (Return s, h) →
  (c ≠ "" → s ≠ "" →
     _getAttributesString this h
     = (Return (("class=" +:+ dquote +:+ c +:+ dquote) +:+ " "
                +:+ ("styles=" +:+ dquote +:+ s +:+ dquote)), h))
  ∧ (c ≠ "" → s = "" →
     _getAttributesString this h = (Return ("class=" +:+ dquote +:+ c +:+ dquote), h))
  ∧ (c = "" → s ≠ "" →
     _getAttributesString this h = (Return ("styles=" +:+ dquote +:+ s +:+ dquote), h))
  ∧ (c = "" → s = "" → _getAttributesString this h = (Return "", h)).
Proof.
  rewrite run_getHtmlMixedClass, run_getCssMixedRules, run__getAttributesString.
  destruct (mixed h this) as [ns|]; [|done].
  intros [= <-] [= ->].
  unfold attributes_string, attribute.
  repeat split; intros Hc Hs.
  - rewrite !bool_decide_true by (by apply length_pos_iff). done.
  - rewrite bool_decide_true by (by apply length_pos_iff).
    rewrite bool_decide_false by (by rewrite length_pos_iff; intros []). done.
  - rewrite (bool_decide_false (0 < String.length (mixed_class ns)))
      by (by rewrite length_pos_iff; intros []).
    rewrite bool_decide_true by (by apply length_pos_iff). done.
  - rewrite !bool_decide_false by (by rewrite length_pos_iff; intros []). done.
Qed.

(** ** The merged css rules, for any number of mixins *)

Lemma index_name_keys_Permutation (ks : list string) :
  (JsObj.index_keys ks).*2 ++ JsObj.name_keys ks ≡ₚ ks.
Proof.
  unfold JsObj.index_keys, JsObj.name_keys.
  induction ks as [|k ks IH]; [done|].
  rewrite filter_cons. simpl.
  destruct (JsObj.array_index k) as [i|] eqn:Hk; simpl.
  - apply Permutation_skip, IH.
  - rewrite <- Permutation_middle. apply Permutation_skip, IH.
Qed.

Lemma keys_Permutation (o : obj) : JsObj.keys o ≡ₚ o.*1.
Proof.
  unfold JsObj.keys. rewrite merge_sort_Permutation.
  apply index_name_keys_Permutation.
Qed.

Lemma fst_set o k v :
  (JsObj.set o k v).*1 = if decide (k ∈ o.*1) then o.*1 else o.*1 ++ [k].
Proof.
  induction o as [|[k0 v0] o IH].
  - done.
  - change (((k0, v0) :: o).*1) with (k0 :: o.*1). simpl JsObj.set.
    destruct (decide (k0 = k)) as [->|Hne].
    + rewrite decide_True; [done|]. by left.
    + change (((k0, v0) :: JsObj.set o k v).*1) with (k0 :: (JsObj.set o k v).*1).
      rewrite IH. destruct (decide (k ∈ o.*1)) as [Hin|Hin].
      * rewrite decide_True; [done|]. by right.
      * rewrite decide_False; [done|]. by intros [?|?]%elem_of_cons.
Qed.

Lemma fst_write o k v :
  (JsObj.write o k v).*1
  = if decide (k = "__proto__") then o.*1
    else if decide (k ∈ o.*1) then o.*1 else o.*1 ++ [k].
Proof. unfold JsObj.write. case_decide; [done|]. apply fst_set. Qed.

Lemma fst_write_own o k v v' : JsObj.get o k = Some v → (JsObj.write o k v').*1 = o.*1.
Proof.
  intros Hk. rewrite fst_write. case_decide; [done|].
  rewrite decide_True; [done|]. apply JsObjFacts.get_is_Some. by eexists.
Qed.

Lemma NoDup_write o k v : NoDup o.*1 → NoDup (JsObj.write o k v).*1.
Proof.
  intros Ho. rewrite fst_write. case_decide; [done|]. case_decide as Hin; [done|].
  apply NoDup_app. split; [done|]. split; [|apply NoDup_singleton].
  intros x Hx ->%list_elem_of_singleton. done.
Qed.

Lemma NoDup_assign t s : NoDup t.*1 → NoDup (JsObj.assign t s).*1.
Proof.
  destruct s as [s|]; [|done]. unfold JsObj.assign.
  generalize (JsObj.keys s). intros ks. revert t.
  induction ks as [|k ks IH]; intros t Ht; [done|].
  simpl. apply IH. by apply NoDup_write.
Qed.

Lemma NoDup_merged (l : list (option obj)) acc :
  NoDup acc.*1 → NoDup (foldl JsObj.assign acc l).*1.
Proof.
  revert acc. induction l as [|s l IH]; intros acc Hacc; [done|].
  simpl. apply IH. by apply NoDup_assign.
Qed.

Lemma get_merged_proto (l : list (option obj)) acc :
  JsObj.get (foldl JsObj.assign acc l) "__proto__" = JsObj.get acc "__proto__".
Proof.
  revert acc. induction l as [|s l IH]; intros acc; [done|].
  simpl. by rewrite IH, JsObjFacts.get_assign_proto.
Qed.

Lemma get_merged_is_Some (l : list (option obj)) acc k :
  k ≠ "__proto__" →
  is_Some (JsObj.get (foldl JsObj.assign acc l) k)
  ↔ is_Some (JsObj.get acc k) ∨ ∃ s, s ∈ l ∧ is_Some (s ≫= (λ o, JsObj.get o k)).
Proof.
  intros Hk. revert acc. induction l as [|s l IH]; intros acc; simpl.
  - split; [by left|]. intros [?|(s & Hs%elem_of_nil & _)]; done.
  - rewrite IH, JsObjFacts.get_assign_opt by done. split.
    + intros [Hacc|(s' & Hs' & Hk')].
      * destruct (s ≫= (λ o, JsObj.get o k)) as [v|] eqn:Hs; [|by left].
        right. exists s. split; [by left|]. by rewrite Hs.
      * right. exists s'. split; [by right | done].
    + intros [Hacc|(s' & [->|Hs']%elem_of_cons & Hk')].
      * left. by destruct (s ≫= (λ o, JsObj.get o k)).
      * left. destruct Hk' as [v ->]. by eexists.
      * right. by exists s'.
Qed.

(** ** The order of the rules *)

Lemma keys_fst (o o' : obj) : o.*1 = o'.*1 → JsObj.keys o = JsObj.keys o'.
Proof. unfold JsObj.keys. by intros ->. Qed.

Lemma fst_foldl_write (f f' : string → value) ks (t t' : obj) :
  t.*1 = t'.*1 →
  (foldl (λ t k, JsObj.write t k (f k)) t ks).*1
  = (foldl (λ t k, JsObj.write t k (f' k)) t' ks).*1.
Proof.
  revert t t'. induction ks as [|k ks IH]; intros t t' Ht; [done|].
  simpl. apply IH. by rewrite !fst_write, Ht.
Qed.

Lemma fst_assign (t t' : obj) (s s' : option obj) :
  t.*1 = t'.*1 →
  fmap (M := list) fst <$> s = fmap (M := list) fst <$> s' →
  (JsObj.assign t s).*1 = (JsObj.assign t' s').*1.
Proof.
  intros Ht Hs. destruct s as [s|], s' as [s'|]; simpl in Hs; try done.
  assert (Hs' : s.*1 = s'.*1) by congruence.
  unfold JsObj.assign. rewrite (keys_fst _ _ Hs'). by apply fst_foldl_write.
Qed.

Lemma fst_merged (l l' : list (option obj)) (acc acc' : obj) :
  acc.*1 = acc'.*1 →
  Forall2 (λ s s', fmap (M := list) fst <$> s = fmap (M := list) fst <$> s') l l' →
  (foldl JsObj.assign acc l).*1 = (foldl JsObj.assign acc' l').*1.
Proof.
  intros Hacc Hl. revert acc acc' Hacc.
  induction Hl as [|s s' l l' Hs _ IH]; intros acc acc' Hacc; [done|].
  simpl. apply IH. by apply fst_assign.
Qed.

Lemma get_merged_agree (l l' : list (option obj)) (acc acc' : obj) k :
  JsObj.get acc k = JsObj.get acc' k →
  Forall2 (λ s s', s ≫= (λ o, JsObj.get o k) = s' ≫= (λ o, JsObj.get o k)) l l' →
  JsObj.get (foldl JsObj.assign acc l) k = JsObj.get (foldl JsObj.assign acc' l') k.
Proof.
  intros Hacc Hl. destruct (decide (k = "__proto__")) as [->|Hk].
  { by rewrite !get_merged_proto. }
  revert acc acc' Hacc.
  induction Hl as [|s s' l l' Hs _ IH]; intros acc acc' Hacc; [done|].
  simpl. apply IH. by rewrite !JsObjFacts.get_assign_opt, Hs, Hacc.
Qed.

(** The records behind a list of references after one record was
    replaced. *)
Lemma nodes_at_set_node h m M M' rs ns :
  h !! m = Some M →
  nodes_at h rs = Some ns →
  ∃ ns', nodes_at (set_node m M' h) rs = Some ns'
         ∧ Forall2 (λ n n', n' = n ∨ (n = M ∧ n' = M')) ns ns'.
Proof.
  intros Hm. revert ns. induction rs as [|r rs IH]; intros ns.
  - intros [= <-]. exists []. by split.
  - intros (n & ns0 & -> & Hr & Hrs)%nodes_at_cons_inv.
    destruct (IH _ Hrs) as (ns' & Hns' & Hall).
    destruct (decide (m = r)) as [->|Hne].
    + exists (M' :: ns'). split.
      * apply nodes_at_cons_Some; [|done].
        rewrite lookup_set_node by (by eexists). by rewrite decide_True.
      * constructor; [|done]. right. split; [congruence | done].
    + exists (n :: ns'). split.
      * apply nodes_at_cons_Some; [|done].
        rewrite lookup_set_node by (by eexists). by rewrite decide_False.
      * constructor; [by left | done].
Qed.

Lemma spread_set_node h r n a : spread (set_node r n h) a = spread h a.
Proof. unfold spread, set_node; simpl. by rewrite length_insert. Qed.

Lemma mixed_set_node h m M M' this ns :
  h !! m = Some M → _mixins M' = _mixins M →
  mixed h this = Some ns →
  ∃ ns', mixed (set_node m M' h) this = Some ns'
         ∧ Forall2 (λ n n', n' = n ∨ (n = M ∧ n' = M')) ns ns'.
Proof.
  intros Hm Hmix (n & nms & -> & Hr & Hnms)%mixed_inv.
  assert (Hall : nodes_at h (mixed_refs h this n) = Some (n :: nms))
    by (by apply nodes_at_cons_Some).
  destruct (nodes_at_set_node _ _ _ M' _ _ Hm Hall) as (ns' & Hns' & Hrel).
  exists ns'. split; [|done]. unfold mixed.
  rewrite lookup_set_node by (by eexists).
  destruct (decide (m = this)) as [->|Hne]; simpl.
  - assert (M = n) as -> by congruence.
    unfold mixed_refs in *. by rewrite spread_set_node, Hmix.
  - rewrite Hr. simpl. unfold mixed_refs in *. by rewrite spread_set_node.
Qed.

(** X11: setting a css property that a node already has never reorders
    the rules.  For every node whose rules are merged from that node (the
    node itself, or a node that mixes it in) the keys of the merged rules
    come out in the same order as before, and the values under the other
    keys are unchanged. *)
Theorem X11_css_overwrite_keeps_rule_order `{Host}
    (h : heap) (this m : ref) (k : string) (v v' : value) (rules : obj) :
  has_value h m "css" k v →
  mixedRules this h = (Return rules, h) →
  ∃ rules',
    mixedRules this (setProp m "css" k v' h).2
    = (Return rules', (setProp m "css" k v' h).2)
    ∧ JsObj.keys rules' = JsObj.keys rules
    ∧ (∀ k', k' ≠ k → JsObj.get rules' k' = JsObj.get rules k').
Proof.
  intros (M & HM & Hh & Hg)%has_value_node.
  apply hasProp_of_true in Hh as (Hu & o & Ho & Hs & [v0 Hv0]).
  rewrite run_mixedRules. destruct (mixed h this) as [ns|] eqn:Hns; [|done].
  intros [= [Huns ->]%merged_css_Return].
  rewrite run_setProp, HM, props_hasOwnProperty_unshadowed by done. simpl.
  set (M' := set_prop "css" k v' M).
  assert (HM' : M' = with_props (λ p, <["css" := JsObj.write o k v']> p) M).
  { unfold M', set_prop. by rewrite Ho. }
  assert (Hcss : _props M' !! "css" = Some (JsObj.write o k v')).
  { rewrite HM'. simpl. by rewrite lookup_insert_eq. }
  assert (Hu' : unshadowed M') by (by apply unshadowed_set_prop).
  destruct (mixed_set_node _ _ _ M' _ _ HM (set_prop_mixins _ _ _ _) Hns)
    as (ns' & Hns' & Hrel).
  assert (Huns' : Forall unshadowed ns').
  { clear -Huns Hrel Hu'. induction Hrel as [|n n' ns ns' Hn _ IH]; [done|].
    apply Forall_cons in Huns as [Hun Huns].
    constructor; [|by apply IH]. by destruct Hn as [-> | [_ ->]]. }
  eexists. rewrite run_mixedRules, Hns', (merged_css_unshadowed _ Huns').
  split; [done|]. split.
  - apply keys_fst. apply fst_merged; [done|]. unfold css_sources.
    apply Forall2_fmap. apply Forall2_flip.
    eapply Forall2_impl; [exact Hrel|]. intros n n' [-> | [-> ->]]; [done|].
    simpl. rewrite Hcss, Ho. simpl. f_equal. by eapply fst_write_own.
  - intros k' Hk'. apply get_merged_agree; [done|]. unfold css_sources.
    apply Forall2_fmap. apply Forall2_flip.
    eapply Forall2_impl; [exact Hrel|]. intros n n' [-> | [-> ->]]; [done|].
    simpl. rewrite Hcss, Ho. simpl. by rewrite JsObjFacts.get_write_ne.
Qed.

(** X10: for a node with any number of mixins on which the merge
    returns, the rule string of [getCssMixedRules] has one rule for each
    key of the merged object and no key twice; a key is in the merged
    object exactly when the css namespace of a mixed node holds it, and it
    carries the value of the last node of the mixed-node sequence whose
    css namespace holds it.  The key [__proto__] is never merged. *)
Theorem X10_css_rules_one_per_key_last_writer `{Host}
    (h : heap) (this : ref) (nodes : list ref) (rules : obj) :
  getAllMixedNodes this h = (Return nodes, h) →
  mixedRules this h = (Return rules, h) →
  getCssMixedRules this h = (Return (join ";" (cssRuleList rules)), h)
  ∧ NoDup (JsObj.keys rules)
  ∧ length (cssRuleList rules) = length (JsObj.keys rules)
  ∧ JsObj.get rules "__proto__" = None
  ∧ (∀ k, k ≠ "__proto__" →
       (k ∈ JsObj.keys rules
        ↔ ∃ m o, m ∈ nodes ∧ has_css h m o ∧ is_Some (JsObj.get o k)))
  ∧ (∀ pre m post k o v,
       k ≠ "__proto__" →
       nodes = pre ++ m :: post →
       has_css h m o →
       JsObj.get o k = Some v →
       (∀ m', m' ∈ post →
          no_css h m' ∨ ∃ o', has_css h m' o' ∧ JsObj.get o' k = None) →
       JsObj.get rules k = Some v
       ∧ kebab k +:+ ":" +:+ to_string v ∈ cssRuleList rules).
Proof.
  intros Hnodes. rewrite run_mixedRules, run_getCssMixedRules.
  destruct (mixed h this) as [ns|] eqn:Hns; [|done].
  intros [= Hrules]. unfold css_rules. rewrite Hrules.
  apply merged_css_Return in Hrules as [Hu ->].
  assert (Hat : nodes_at h nodes = Some ns).
  { rewrite run_getAllMixedNodes in Hnodes. unfold mixed in Hns.
    destruct (h !! this) as [n|]; [|done]. by injection Hnodes as <-. }
  apply nodes_at_Forall2 in Hat.
  split; [done|]. split; [|split; [|split; [|split]]].
  - rewrite keys_Permutation. by apply NoDup_merged, NoDup_nil_2.
  - unfold cssRuleList. by rewrite length_fmap.
  - by rewrite get_merged_proto.
  - intros k Hk. rewrite JsObjFacts.elem_of_keys, get_merged_is_Some by done.
    unfold css_sources. split.
    + intros [[? [=]]|(s & Hs & [v Hv])].
      apply list_elem_of_fmap in Hs as (nm & -> & Hnm).
      apply list_elem_of_lookup in Hnm as [i Hi].
      destruct (Forall2_lookup_r _ _ _ _ _ Hat Hi) as (m & Hm & Hhm).
      destruct (_props nm !! "css") as [o|] eqn:Ho; [|done]. simpl in Hv.
      exists m, o. split; [by eapply list_elem_of_lookup_2|].
      split; [|by eexists]. apply has_css_node. exists nm.
      split; [done|]. split; [|done]. by eapply Forall_lookup_1.
    + intros (m & o & Hm & (nm & Hhm & _ & Ho)%has_css_node & Hv). right.
      apply list_elem_of_lookup in Hm as [i Hi].
      destruct (Forall2_lookup_l _ _ _ _ _ Hat Hi) as (nm' & Hnm & Hhm').
      assert (nm' = nm) as -> by congruence.
      exists (_props nm !! "css"). split.
      * apply list_elem_of_fmap. exists nm. split; [done|].
        by eapply list_elem_of_lookup_2.
      * by rewrite Ho.
  - intros pre m post k o v Hk -> (nm & Hhm & _ & Ho)%has_css_node Hv Hpost.
    apply Forall2_app_inv_l in Hat as (npre & nrest & Hpre & Hrest & ->).
    apply Forall2_cons_inv_l in Hrest as (nm' & npost & Hm' & Hnpost & ->).
    assert (nm' = nm) as -> by congruence.
    assert (Hget : JsObj.get (foldl JsObj.assign JsObj.empty
                                (css_sources (npre ++ nm :: npost))) k = Some v).
    { unfold css_sources. rewrite fmap_app, fmap_cons.
      apply get_merged_last; [done | by rewrite Ho |].
      apply Forall_fmap. apply Forall_forall. intros x Hx.
      apply list_elem_of_lookup in Hx as [i Hi].
      destruct (Forall2_lookup_r _ _ _ _ _ Hnpost Hi) as (m' & Hmi & Hhm').
      destruct (Hpost m') as [Hno|(o' & Hhas & Hnone)];
        [by eapply list_elem_of_lookup_2| |].
      - apply no_css_node in Hno as (x' & Hx' & _ & Hnone).
        assert (x' = x) as -> by congruence. simpl. by rewrite Hnone.
      - apply has_css_node in Hhas as (x' & Hx' & _ & Ho').
        assert (x' = x) as -> by congruence. simpl. by rewrite Ho'. }
    split; [done | by apply rule_in_list].
Qed.

(** * Further properties of the class *)

(** ** Children *)

Lemma run_getChilds h r :
  getChilds r h
  = (match h !! r with
     | Some n => Return (_content n)
     | None => Throw TypeError
     end, h).
Proof. unfold getChilds. rewrite run_getter. by destruct (h !! r). Qed.

Lemma run_hasChilds h r :
  hasChilds r h
  = (match h !! r with
     | Some n =>
         match arrays h !! _content n with
         | Some items => Return (bool_decide (0 < length items))
         | None => Throw TypeError
         end
     | None => Throw TypeError
     end, h).
Proof.
  unfold hasChilds. rewrite run_getter. destruct (h !! r) as [n|]; [|done].
  unfold mbind, M_bind. rewrite run_array_length.
  by destruct (arrays h !! _content n).
Qed.

Lemma run_emptyChilds h r :
  emptyChilds r h
  = (match h !! r with
     | Some n =>
         match arrays h !! _content n with
         | Some items => Return (bool_decide (length items = 0))
         | None => Throw TypeError
         end
     | None => Throw TypeError
     end, h).
Proof.
  unfold emptyChilds. rewrite run_getter. destruct (h !! r) as [n|]; [|done].
  unfold mbind, M_bind. rewrite run_array_length.
  by destruct (arrays h !! _content n).
Qed.

Lemma run_getDirectives h r :
  getDirectives r h
  = (match h !! r with
     | Some n => Return (_directives n)
     | None => Throw TypeError
     end, h).
Proof. unfold getDirectives. rewrite run_getter. by destruct (h !! r). Qed.

Lemma run_hasDirective h r k :
  hasDirective r k h
  = (match h !! r with
     | Some n =>
         if bool_decide (_directives n !! "hasOwnProperty" = None)
         then Return (bool_decide (is_Some (_directives n !! k)))
         else Throw TypeError
     | None => Throw TypeError
     end, h).
Proof.
  unfold hasDirective. rewrite run_getter. destruct (h !! r) as [n|]; [|done].
  by case_bool_decide.
Qed.

Section Getters.
Context `{Host}.

Lemma run_getDirective h r k :
  getDirective r k h
  = (match h !! r with
     | Some n =>
         Return (match _directives n !! k with
                 | Some d => Handle d
                 | None => NoHandle (inherited_member k)
                 end)
     | None => Throw TypeError
     end, h).
Proof. unfold getDirective. rewrite run_getter. by destruct (h !! r). Qed.

End Getters.

Lemma length_nil_iff {A : Type} (l : list A) : length l = 0 ↔ l = [].
Proof. by destruct l. Qed.

(** X3: [setChilds] makes the given array the array of children of
    [this]: afterwards [getChilds] returns that array, whatever the
    children were, [emptyChilds] tells whether it is empty and
    [hasChilds] the opposite.  No array is changed, and the other nodes
    and the other fields are as before. *)
Theorem X3_setChilds_replaces `{Host} (h : heap) (this : ref) (nodes : aref) :
  is_Some (h !! this) →
  ∃ h',
    setChilds this nodes h = (Return (), h')
    ∧ getChilds this h' = (Return nodes, h')
    ∧ (∀ items, arrays h !! nodes = Some items →
         emptyChilds this h' = (Return (bool_decide (items = [])), h')
         ∧ hasChilds this h' = (Return (negb (bool_decide (items = []))), h'))
    ∧ arrays h' = arrays h
    ∧ (∀ r, r ≠ this → h' !! r = h !! r)
    ∧ (∀ r, (getMixines r h').1 = (getMixines r h).1
            ∧ (getDirectives r h').1 = (getDirectives r h).1
            ∧ ∀ ns, (getPropNS r ns h').1 = (getPropNS r ns h).1).
Proof.
  intros [n Hn]. eexists. rewrite run_setChilds, Hn. split; [done|].
  rewrite run_getChilds, run_emptyChilds, run_hasChilds.
  rewrite lookup_set_node, decide_True by (by eexists || done). simpl.
  split; [done|]. split; [|split; [done|split]].
  - intros items ->. split; do 2 f_equal.
    + apply bool_decide_ext, length_nil_iff.
    + by destruct items.
  - intros r Hne. rewrite lookup_set_node by (by eexists). by rewrite decide_False.
  - intros r. rewrite !run_getMixines, !run_getDirectives.
    rewrite lookup_set_node by (by eexists). case_decide as Hr.
    + subst r. rewrite Hn. simpl. split; [done|]. split; [done|].
      intros ns. rewrite !run_getPropNS.
      rewrite lookup_set_node, decide_True by (by eexists || done).
      by rewrite Hn.
    + split; [done|]. split; [done|].
      intros ns. rewrite !run_getPropNS.
      rewrite lookup_set_node by (by eexists). by rewrite decide_False.
Qed.

(** X2: [addChild] pushes the node into the array that [this] holds as
    its children.  The array grows in place by that one reference, so
    that [hasChilds] is true and [emptyChilds] is false afterwards; no
    node record and no other array changes; and every node that holds
    the same array sees the new entry: as a child when the array is its
    array of children, as a mixin when it is its array of mixins.  When
    what [this] holds as its children is no array, [addChild] throws. *)
Theorem X2_addChild_appends `{Host} (h : heap) (this node : ref) (content : aref) :
  getChilds this h = (Return content, h) →
  (∀ items, arrays h !! content = Some items →
     ∃ h',
       addChild this node h = (Return (), h')
       ∧ getChilds this h' = (Return content, h')
       ∧ arrays h' !! content = Some (items ++ [node])
       ∧ hasChilds this h' = (Return true, h')
       ∧ emptyChilds this h' = (Return false, h')
       ∧ objects h' = objects h
       ∧ (∀ a, a ≠ content → arrays h' !! a = arrays h !! a)
       ∧ (∀ r, getChilds r h = (Return content, h) →
               hasChilds r h' = (Return true, h'))
       ∧ (∀ r, getMixines r h = (Return content, h) →
               getAllMixedNodes r h' = (Return (r :: items ++ [node]), h')))
  ∧ (arrays h !! content = None → addChild this node h = (Throw TypeError, h)).
Proof.
  rewrite run_getChilds. destruct (h !! this) as [n|] eqn:Hn; [|done].
  intros [= <-]. split.
  2:{ intros Ha. by rewrite run_addChild, Hn, Ha. }
  intros items Ha. eexists. rewrite run_addChild, Hn, Ha. split; [done|].
  assert (Hnew : arrays (set_array (_content n) (items ++ [node]) h) !! _content n
                 = Some (items ++ [node])).
  { rewrite arrays_set_array by (by eexists). by rewrite decide_True. }
  assert (Hhas : ∀ r, getChilds r h = (Return (_content n), h) →
            hasChilds r (set_array (_content n) (items ++ [node]) h)
            = (Return true, set_array (_content n) (items ++ [node]) h)).
  { intros r. rewrite run_getChilds, run_hasChilds, lookup_set_array.
    destruct (h !! r) as [R|]; [|done]. intros [= ->]. rewrite Hnew.
    rewrite length_app. simpl. rewrite bool_decide_true by lia. done. }
  rewrite run_getChilds, run_emptyChilds, lookup_set_array, Hn, Hnew.
  split; [done|]. split; [done|].
  split; [by apply Hhas; rewrite run_getChilds, Hn|].
  split.
  { rewrite length_app. simpl. rewrite bool_decide_false by lia. done. }
  split; [done|]. split.
  { intros a Hne. rewrite arrays_set_array by (by eexists). by rewrite decide_False. }
  split; [done|].
  intros r. rewrite run_getMixines, run_getAllMixedNodes, lookup_set_array.
  destruct (h !! r) as [R|]; [|done]. intros [= HR].
  unfold mixed_refs. rewrite HR. by rewrite (spread_array _ _ _ Hnew).
Qed.

(** ** Adding a mixin *)

Lemma append_assoc (a b c : string) : (a +:+ b) +:+ c = a +:+ (b +:+ c).
Proof.
  induction a as [|x a IH]; [done|].
  change (String x ((a +:+ b) +:+ c) = String x (a +:+ (b +:+ c))). by f_equal.
Qed.

Lemma join_snoc sep (l : list string) x :
  l ≠ [] → join sep (l ++ [x]) = join sep l +:+ sep +:+ x.
Proof.
  intros Hl. induction l as [|a l IH]; [done|].
  destruct l as [|b l]; [done|].
  change (a +:+ sep +:+ join sep ((b :: l) ++ [x])
          = (a +:+ sep +:+ join sep (b :: l)) +:+ sep +:+ x).
  rewrite IH by done. by rewrite !append_assoc.
Qed.

(** X4: [addMixin] pushes the node into the array that [this] holds as
    its mixins: the node comes last in the mixed-node sequence of
    [this], also when it is there already or is [this] itself, and the
    class string of [getHtmlMixedClass] grows by one space and the class
    of the new mixin.  No node record and no other array changes.  When
    what [this] holds as its mixins is no array, [addMixin] throws. *)
Theorem X4_addMixin_appends `{Host} (h : heap) (this m : ref) (mixins : aref) :
  getMixines this h = (Return mixins, h) →
  (∀ items, arrays h !! mixins = Some items →
     ∃ h',
       addMixin this m h = (Return (), h')
       ∧ getMixines this h' = (Return mixins, h')
       ∧ arrays h' !! mixins = Some (items ++ [m])
       ∧ getAllMixedNodes this h = (Return (this :: items), h)
       ∧ getAllMixedNodes this h' = (Return (this :: items ++ [m]), h')
       ∧ (∀ c cm,
            getHtmlMixedClass this h = (Return c, h) →
            getHtmlClass m h = (Return cm, h) →
            getHtmlMixedClass this h' = (Return (c +:+ " " +:+ cm), h'))
       ∧ objects h' = objects h
       ∧ (∀ a, a ≠ mixins → arrays h' !! a = arrays h !! a))
  ∧ (arrays h !! mixins = None → addMixin this m h = (Throw TypeError, h)).
Proof.
  rewrite run_getMixines. destruct (h !! this) as [n|] eqn:Hn; [|done].
  intros [= <-]. split.
  2:{ intros Ha. by rewrite run_addMixin, Hn, Ha. }
  intros items Ha. eexists. rewrite run_addMixin, Hn, Ha. split; [done|].
  set (h' := set_array (_mixins n) (items ++ [m]) h).
  assert (Hnew : arrays h' !! _mixins n = Some (items ++ [m])).
  { unfold h'. rewrite arrays_set_array by (by eexists). by rewrite decide_True. }
  assert (Hlook : ∀ r, h' !! r = h !! r) by done.
  rewrite run_getMixines, !run_getAllMixedNodes, Hlook, Hn.
  unfold mixed_refs. rewrite (spread_array _ _ _ Hnew), (spread_array _ _ _ Ha).
  do 4 (split; [done|]). split; [|split; [done|]].
  - intros c cm. rewrite !run_getHtmlMixedClass, run_getHtmlClass.
    unfold mixed, mixed_refs. rewrite Hlook, Hn. simpl.
    rewrite (spread_array _ _ _ Hnew), (spread_array _ _ _ Ha).
    rewrite (nodes_at_objects h h') by done.
    destruct (nodes_at h (this :: items)) as [ns|] eqn:Hns; [|done].
    intros [= <-]. destruct (h !! m) as [M|] eqn:HM; [|done]. intros [= <-].
    change (this :: items ++ [m]) with ((this :: items) ++ [m]).
    rewrite (nodes_at_app h (this :: items) [m] ns [M]);
      [|done|by apply nodes_at_cons_Some].
    do 2 f_equal. unfold mixed_class. rewrite fmap_app. simpl.
    apply join_snoc.
    apply nodes_at_cons_inv in Hns as (? & ? & -> & _ & _). done.
  - intros a Hne. unfold h'. rewrite arrays_set_array by (by eexists).
    by rewrite decide_False.
Qed.

(** ** Directives *)

Lemma set_node_id h r n : h !! r = Some n → set_node r n h = h.
Proof.
  intros Hr. destruct h as [os ars]. unfold set_node; simpl.
  rewrite heap_lookup_objects in Hr. simpl in Hr. by rewrite list_insert_id.
Qed.

Lemma with_directives_id n : with_directives (λ ds, ds) n = n.
Proof. by destruct n. Qed.

(** X5: [addDirective] under a name other than [__proto__] stores the
    handle: [getDirective] returns it, and [hasDirective] is true when it
    answered before and the name is not [hasOwnProperty].  A handle
    stored under the name [hasOwnProperty] shadows the method that
    [hasDirective] calls, which throws from then on, for every name.
    Under the name [__proto__] nothing is stored and the store is as
    before.  The other names of the node, the other nodes and all arrays
    are as before, and a handle set earlier under the same name leaves no
    trace. *)
Theorem X5_addDirective_round_trip `{Host}
    (h : heap) (this : ref) (nm : string) (d : directive) :
  is_Some (h !! this) →
  ∃ h',
    addDirective this nm d h = (Return (), h')
    ∧ (nm = "__proto__" → h' = h)
    ∧ (nm ≠ "__proto__" → getDirective this nm h' = (Return (Handle d), h'))
    ∧ (nm ≠ "__proto__" → nm ≠ "hasOwnProperty" →
       ∀ b, hasDirective this nm h = (Return b, h) →
            hasDirective this nm h' = (Return true, h'))
    ∧ (nm = "hasOwnProperty" →
       ∀ k, hasDirective this k h' = (Throw TypeError, h'))
    ∧ (∀ k, k ≠ nm → (getDirective this k h').1 = (getDirective this k h).1)
    ∧ (nm ≠ "hasOwnProperty" →
       ∀ k, k ≠ nm → (hasDirective this k h').1 = (hasDirective this k h).1)
    ∧ (∀ r, r ≠ this → h' !! r = h !! r)
    ∧ arrays h' = arrays h
    ∧ (∀ d0, (addDirective this nm d (addDirective this nm d0 h).2).2 = h').
Proof.
  intros [n Hn]. eexists. rewrite run_addDirective, Hn. split; [done|].
  set (n' := with_directives _ n).
  assert (Hn' : set_node this n' h !! this = Some n').
  { rewrite lookup_set_node by (by eexists). by rewrite decide_True. }
  assert (Hd : _directives n'
               = if decide (nm = "__proto__") then _directives n
                 else <[nm := d]> (_directives n)) by done.
  split; [|split; [|split; [|split; [|split; [|split; [|split; [|split]]]]]]].
  - intros ->. assert (n' = n) as -> by (by destruct n). by apply set_node_id.
  - intros Hp. rewrite run_getDirective, Hn', Hd, decide_False by done.
    by rewrite lookup_insert_eq.
  - intros Hp Hs b. rewrite !run_hasDirective, Hn, Hn', Hd, decide_False by done.
    rewrite lookup_insert_ne by done.
    case_bool_decide; [|done]. intros _.
    rewrite lookup_insert_eq. by rewrite bool_decide_true by (by eexists).
  - intros -> k. rewrite run_hasDirective, Hn', Hd, decide_False by done.
    rewrite lookup_insert_eq. by rewrite bool_decide_false.
  - intros k Hk. rewrite !run_getDirective, Hn, Hn', Hd. simpl.
    case_decide; [done|]. by rewrite lookup_insert_ne.
  - intros Hs k Hk. rewrite !run_hasDirective, Hn, Hn', Hd. simpl.
    case_decide; [done|]. by rewrite !lookup_insert_ne.
  - intros r Hr. rewrite lookup_set_node by (by eexists). by rewrite decide_False.
  - done.
  - intros d0. rewrite !run_addDirective, Hn. simpl.
    rewrite lookup_set_node, decide_True by (by eexists || done). simpl.
    rewrite set_node_twice. f_equal. unfold n', with_directives; simpl.
    case_decide; [done|]. by rewrite insert_insert_eq.
Qed.

(** ** Setting properties *)

Lemma set_set o k v v' : JsObj.set (JsObj.set o k v) k v' = JsObj.set o k v'.
Proof.
  induction o as [|[k0 v0] o IH]; simpl.
  - by case_decide.
  - destruct (decide (k0 = k)) as [->|Hne]; simpl.
    + by case_decide.
    + case_decide; [done|]. by rewrite IH.
Qed.

Lemma write_write o k v v' : JsObj.write (JsObj.write o k v) k v' = JsObj.write o k v'.
Proof. unfold JsObj.write. case_decide; [done|]. apply set_set. Qed.

Lemma set_prop_twice namespace k v0 v n :
  set_prop namespace k v (set_prop namespace k v0 n) = set_prop namespace k v n.
Proof.
  unfold set_prop. destruct (_props n !! namespace) as [o|] eqn:Ho; simpl.
  - rewrite lookup_insert_eq. unfold with_props; simpl.
    by rewrite insert_insert_eq, write_write.
  - case_decide; simpl.
    + by rewrite Ho.
    + rewrite lookup_insert_eq. unfold with_props; simpl.
      by rewrite insert_insert_eq, write_write.
Qed.

Section SetProp.
Context `{Host}.

Lemma props_member_set_prop_ne n namespace k v namespace' :
  namespace ≠ "__proto__" → namespace' ≠ namespace →
  props_member (set_prop namespace k v n) namespace' = props_member n namespace'.
Proof.
  intros Hp Hne. unfold props_member.
  rewrite props_set_prop_ne by done.
  unfold set_prop. destruct (_props n !! namespace); [done|].
  by rewrite decide_False.
Qed.

End SetProp.

(** X6: [setProp] throws when [hasPropNS] throws, and changes nothing
    then.  When [hasPropNS] answers, [setProp] returns.  Under a
    namespace other than [__proto__] the namespace exists afterwards;
    the value is found under a name other than [__proto__], while under
    the name [__proto__] nothing is stored and the namespace is as it
    was, or new and empty.  A namespace named [hasOwnProperty] shadows the
    method that [hasPropNS] calls, which throws from then on.  Under the
    namespace [__proto__] no namespace is created: the object with the
    one property becomes the prototype of [_props].  The other namespaces,
    the other nodes and all arrays are as before, and, where a second
    [setProp] still returns, a value set earlier under the same name
    leaves no trace. *)
Theorem X6_setProp_overwrites_and_frames `{Host}
    (h : heap) (this : ref) (ns k : string) (v : value) :
  (hasPropNS this ns h = (Throw TypeError, h) →
     setProp this ns k v h = (Throw TypeError, h))
  ∧ (∀ b, hasPropNS this ns h = (Return b, h) →
       ∃ h',
         setProp this ns k v h = (Return (), h')
         ∧ (ns ≠ "__proto__" → ns ≠ "hasOwnProperty" →
            hasPropNS this ns h' = (Return true, h'))
         ∧ (ns ≠ "__proto__" → k ≠ "__proto__" →
            getProp this ns k h' = (Return (Prim v), h'))
         ∧ (ns ≠ "__proto__" → k = "__proto__" →
            getPropNS this ns h'
            = (if b then (getPropNS this ns h).1 else Return (Plain JsObj.empty), h'))
         ∧ (ns = "hasOwnProperty" →
            ∀ ns', hasPropNS this ns' h' = (Throw TypeError, h'))
         ∧ (ns = "__proto__" → b = false →
            getPropNS this ns h' = (Return (Plain (JsObj.write JsObj.empty k v)), h')
            ∧ (k ≠ "hasOwnProperty" → hasPropNS this ns h' = (Return false, h'))
            ∧ (k = "hasOwnProperty" →
               ∀ ns', hasPropNS this ns' h' = (Throw TypeError, h')))
         ∧ (ns ≠ "__proto__" →
            ∀ ns', ns' ≠ ns → (getPropNS this ns' h').1 = (getPropNS this ns' h).1)
         ∧ (∀ r, r ≠ this → h' !! r = h !! r)
         ∧ arrays h' = arrays h
         ∧ (ns ≠ "hasOwnProperty" → (ns = "__proto__" → k ≠ "hasOwnProperty") →
            ∀ v0, (setProp this ns k v (setProp this ns k v0 h).2).2 = h')).
Proof.
  rewrite run_hasPropNS, run_setProp.
  destruct (h !! this) as [n|] eqn:Hn; [|by split; [|intros ? [=]]].
  split.
  { intros [= Hb]. by rewrite Hb. }
  intros b [= Hb]. rewrite Hb. eexists. split; [done|].
  apply props_hasOwnProperty_Return in Hb as [Hu Hb].
  set (n' := set_prop ns k v n).
  assert (Hn' : set_node this n' h !! this = Some n').
  { rewrite lookup_set_node by (by eexists). by rewrite decide_True. }
  rewrite !run_hasPropNS, !run_getPropNS, run_getProp, Hn', Hn. simpl.
  split; [|split; [|split; [|split; [|split; [|split; [|split; [|split]]]]]]].
  - intros Hp Hs. rewrite props_hasOwnProperty_unshadowed
      by (by apply unshadowed_set_prop).
    unfold n'. rewrite props_set_prop by done.
    by rewrite bool_decide_true by (by eexists).
  - intros Hp Hk. f_equal. eapply getProp_of_own; [by apply props_set_prop|].
    by apply JsObjFacts.get_write_eq.
  - intros Hp ->. f_equal.
    rewrite (props_member_own _ _ _ (props_set_prop n ns "__proto__" v Hp)).
    unfold JsObj.write. rewrite decide_True by done.
    destruct (_props n !! ns) as [o|] eqn:Ho.
    + rewrite bool_decide_true in Hb by (by eexists). subst b.
      by rewrite (props_member_own _ _ _ Ho).
    + rewrite bool_decide_false in Hb by (by intros [? ?]). by subst b.
  - intros -> ns'. rewrite run_hasPropNS, Hn'. f_equal.
    apply props_hasOwnProperty_Throw.
    intros [Hs _]. unfold n' in Hs. by rewrite props_set_prop in Hs.
  - intros -> ->. symmetry in Hb. apply bool_decide_eq_false in Hb.
    assert (Ho : _props n !! "__proto__" = None).
    { destruct (_props n !! "__proto__"); [|done]. destruct Hb. by eexists. }
    assert (Hn'' : n' = with_props_proto
                          (λ _, Some (JsObj.write JsObj.empty k v)) n).
    { unfold n', set_prop. by rewrite Ho. }
    split; [|split].
    + f_equal. rewrite Hn''. unfold props_member. simpl. rewrite Ho.
      unfold JsObj.write. case_decide as Hk; simpl; [done|].
      by rewrite decide_False.
    + intros Hk. rewrite props_hasOwnProperty_unshadowed.
      * rewrite Hn''. simpl. rewrite Ho.
        by rewrite bool_decide_false by (by intros [? ?]).
      * destruct Hu as [Hu1 Hu2]. rewrite Hn''. split; [done|]. simpl.
        unfold JsObj.write. case_decide; [done|]. simpl.
        by rewrite decide_False.
    + intros -> ns'. rewrite run_hasPropNS, Hn'. f_equal.
      apply props_hasOwnProperty_Throw.
      intros [_ Hs]. rewrite Hn'' in Hs. by simpl in Hs.
  - intros Hp ns' Hne. rewrite !run_getPropNS, Hn', Hn. simpl. f_equal.
    by apply props_member_set_prop_ne.
  - intros r Hr. rewrite lookup_set_node by (by eexists). by rewrite decide_False.
  - done.
  - intros Hs Hk v0. rewrite !run_setProp, Hn.
    rewrite (props_hasOwnProperty_unshadowed _ _ Hu). simpl.
    rewrite lookup_set_node, decide_True by (by eexists || done).
    assert (Hu0 : unshadowed (set_prop ns k v0 n)).
    { destruct (decide (ns = "__proto__")) as [->|Hp];
        [|by apply unshadowed_set_prop].
      unfold set_prop. destruct (_props n !! "__proto__") as [o|] eqn:Ho.
      - destruct Hu as [Hu1 Hu2]. split; [|done]. simpl.
        by rewrite lookup_insert_ne.
      - rewrite decide_True by done. destruct Hu as [Hu1 Hu2]. split; [done|].
        simpl. unfold JsObj.write. case_decide; [done|]. simpl.
        rewrite decide_False; [done|]. intros ->. by apply Hk. }
    rewrite (props_hasOwnProperty_unshadowed _ _ Hu0). simpl.
    by rewrite set_node_twice, set_prop_twice.
Qed.

(** ** Reading a property that is not there *)

(** X12: when [getPropNS] finds a plain object under the namespace,
    [getProp] never throws: it returns the stored value for a name the
    object holds and, for a name it does not hold, what the object
    inherits: the member of [Object.prototype] of that name, the
    prototype itself for [__proto__], and [undefined] only when there is
    no such member.  A namespace that exists is such an object.  When
    [getPropNS] finds [undefined], the namespace does not exist and
    [getProp] throws. *)
Theorem X12_getProp_missing_name_is_undefined `{Host}
    (h : heap) (this : ref) (ns k : string) :
  (∀ o, getPropNS this ns h = (Return (Plain o), h) →
     (∀ v, JsObj.get o k = Some v → getProp this ns k h = (Return (Prim v), h))
     ∧ (JsObj.get o k = None → k ≠ "__proto__" → inherited k = None →
        getProp this ns k h = (Return (Prim Undefined), h))
     ∧ (∀ e, JsObj.get o k = None → k ≠ "__proto__" → inherited k = Some e →
        getProp this ns k h = (Return (Foreign e), h))
     ∧ (JsObj.get o k = None → k = "__proto__" →
        getProp this ns k h = (Return (Foreign object_prototype), h)))
  ∧ (hasPropNS this ns h = (Return true, h) →
     ∃ o, getPropNS this ns h = (Return (Plain o), h))
  ∧ (getPropNS this ns h = (Return (Prim Undefined), h) →
     getProp this ns k h = (Throw TypeError, h)
     ∧ ∀ b, hasPropNS this ns h = (Return b, h) → b = false).
Proof.
  split; [|split].
  - intros o. rewrite run_getPropNS, run_getProp.
    destruct (h !! this) as [n|]; [|done]. intros [= Hm].
    unfold getProp_of. rewrite Hm. simpl. unfold member_plain, inherited_member.
    repeat split.
    + by intros v ->.
    + intros -> Hk ->. by rewrite decide_False.
    + intros e -> Hk ->. by rewrite decide_False.
    + intros -> ->. done.
  - apply hasPropNS_receiver.
  - rewrite run_getPropNS, run_getProp, run_hasPropNS.
    destruct (h !! this) as [n|]; [|done]. intros [= Hm]. split.
    + unfold getProp_of. by rewrite Hm.
    + intros b [= [_ ->]%props_hasOwnProperty_Return].
      apply bool_decide_eq_false. intros [o Ho].
      by rewrite (props_member_own _ _ _ Ho) in Hm.
Qed.

(** ** What rendering depends on *)

Section RenderingFrame.
Context `{Host}.

Lemma well_mixed_mixed h this : well_mixed h this ↔ is_Some (mixed h this).
Proof.
  unfold well_mixed, mixed. rewrite run_getAllMixedNodes.
  destruct (h !! this) as [n|]; simpl.
  - split.
    + intros (nodes & [= <-] & Hall). by apply nodes_at_Forall.
    + intros [ns Hns]. eexists. split; [done|].
      apply nodes_at_Forall2 in Hns. apply Forall_forall. intros r Hr.
      apply list_elem_of_lookup in Hr as [i Hi].
      destruct (Forall2_lookup_l _ _ _ _ _ Hns Hi) as (x & _ & Hx). by eexists.
  - split; [by intros (? & [=] & _) | by intros [? ?]].
Qed.

Lemma same_render_refl n : same_render n n.
Proof. done. Qed.

Lemma same_render_fold ns ns' :
  Forall2 same_render ns ns' →
  html_tag ns = html_tag ns' ∧ merged_css ns = merged_css ns'
  ∧ mixed_class ns = mixed_class ns'.
Proof.
  intros Hrel. split; [|split].
  - unfold html_tag. generalize (Prim (E := foreign) (Str "div")).
    induction Hrel as [|n n' ns ns' (Ht & _ & _) _ IH]; intros tag; [done|].
    simpl. rewrite <- Ht. destruct (tag_step tag n); [apply IH | done].
  - unfold merged_css. generalize JsObj.empty.
    induction Hrel as [|n n' ns ns' (_ & Hc & _) _ IH]; intros rules; [done|].
    simpl. rewrite <- Hc. destruct (css_step rules n); [apply IH | done].
  - unfold mixed_class. f_equal.
    induction Hrel as [|n n' ns ns' (_ & _ & Hcl) _ IH]; [done|].
    rewrite !fmap_cons. by rewrite Hcl, IH.
Qed.

(** What [this] renders is a function of the records behind its
    mixed-node sequence. *)
Lemma rendering_mixed h h' this ns ns' :
  mixed h this = Some ns → mixed h' this = Some ns' →
  Forall2 same_render ns ns' →
  rendering this h' = rendering this h.
Proof.
  intros Hns Hns' Hrel. unfold rendering.
  rewrite !run_getHtmlTag, !run_getCssMixedRules, !run_getHtmlClass,
    !run_getHtmlMixedClass, !run__getAttributesString, !run_getHtmlTagStart,
    !run_getHtmlTagEnd, Hns, Hns'.
  destruct (same_render_fold _ _ Hrel) as (Ht & Hc & Hcl).
  apply mixed_inv in Hns as (n & nms & -> & -> & _).
  apply mixed_inv in Hns' as (n' & nms' & -> & -> & _).
  apply Forall2_cons in Hrel as [(_ & _ & Hn) _].
  unfold css_rules. by rewrite Ht, Hc, Hcl, Hn.
Qed.

Lemma rendering_same_mixed h h' this ns :
  mixed h this = Some ns → mixed h' this = Some ns →
  rendering this h' = rendering this h.
Proof.
  intros Hns Hns'. eapply rendering_mixed; [done..|].
  apply Forall2_same_length_lookup_2; [done|]. intros i x y Hx Hy.
  assert (x = y) as -> by congruence. apply same_render_refl.
Qed.

(** The store grows: new nodes and new arrays. *)
Lemma mixed_grow h h' this ns os ars :
  objects h' = objects h ++ os → arrays h' = arrays h ++ ars →
  mixed h this = Some ns → mixed h' this = Some ns.
Proof.
  intros Ho Ha (n & nms & -> & Hn & Hnms)%mixed_inv.
  assert (Hlook : ∀ r x, h !! r = Some x → h' !! r = Some x).
  { intros r x. rewrite !heap_lookup_objects, Ho. apply lookup_app_l_Some. }
  assert (∃ items, arrays h !! _mixins n = Some items) as [items Hitems].
  { destruct (arrays h !! _mixins n) as [items|] eqn:Hitems; [by eexists|].
    unfold spread in Hnms. rewrite Hitems in Hnms. simpl in Hnms.
    apply nodes_at_cons_inv in Hnms as (x & _ & _ & Hx & _).
    rewrite heap_lookup_objects in Hx.
    by rewrite lookup_ge_None_2 in Hx. }
  rewrite (spread_array _ _ _ Hitems) in Hnms.
  apply mixed_Some; [by apply Hlook|].
  rewrite (spread_array h' _ items) by (rewrite Ha; by apply lookup_app_l_Some).
  apply nodes_at_Forall2. apply nodes_at_Forall2 in Hnms.
  eapply Forall2_impl; [exact Hnms|]. intros r x. apply Hlook.
Qed.

(** An array other than the array of mixins of [this] changes. *)
Lemma mixed_set_array h this n a items :
  h !! this = Some n → a ≠ _mixins n →
  mixed (set_array a items h) this = mixed h this.
Proof.
  intros Hn Hne. unfold mixed, mixed_refs. rewrite lookup_set_array, Hn. simpl.
  rewrite (nodes_at_objects h (set_array a items h)) by done.
  do 2 f_equal. unfold spread. simpl.
  by rewrite list_lookup_insert_ne.
Qed.

(** One record is replaced by a record that renders the same. *)
Lemma rendering_set_node h this m M M' :
  well_mixed h this → h !! m = Some M →
  _mixins M' = _mixins M → same_render M M' →
  rendering this (set_node m M' h) = rendering this h.
Proof.
  intros [ns Hns]%well_mixed_mixed Hm Hmix Hsame.
  destruct (mixed_set_node _ _ _ M' _ _ Hm Hmix Hns) as (ns' & Hns' & Hrel).
  eapply rendering_mixed; [done..|].
  eapply Forall2_impl; [exact Hrel|].
  intros n n' [-> | [-> ->]]; [apply same_render_refl | done].
Qed.

Lemma same_render_fields n n' :
  _props n' = _props n → _props_proto n' = _props_proto n →
  classification n' = classification n →
  same_render n n'.
Proof.
  intros Hp Hq Hc. destruct n, n'. unfold classification in Hc. simpl in *.
  injection Hc as -> -> -> -> ->. subst. done.
Qed.

Lemma same_render_set_prop n namespace k v :
  unshadowed n →
  namespace ≠ "css" → namespace ≠ "hasOwnProperty" →
  (namespace = "html" → k ≠ "tag" ∧ k ≠ "hasOwnProperty") →
  (namespace = "__proto__" → k ≠ "hasOwnProperty") →
  same_render n (set_prop namespace k v n).
Proof.
  intros Hu Hcss Hs Hhtml Hproto.
  assert (Hu' : unshadowed (set_prop namespace k v n)).
  { destruct (decide (namespace = "__proto__")) as [->|Hp];
      [|by apply unshadowed_set_prop].
    unfold set_prop. destruct Hu as [Hu1 Hu2].
    destruct (_props n !! "__proto__") as [o|] eqn:Ho.
    - split; [|done]. simpl. by rewrite lookup_insert_ne.
    - rewrite decide_True by done. split; [done|]. simpl.
      unfold JsObj.write. case_decide; [done|]. simpl.
      rewrite decide_False; [done|]. intros ->. by apply Hproto. }
  split; [|split].
  - intros tag. unfold tag_step. rewrite !hasProp_of_unshadowed by done.
    destruct (decide (namespace = "html")) as [->|Hne].
    + destruct (Hhtml eq_refl) as [Hk1 Hk2].
      assert (Hhp : "html" ≠ "__proto__") by done.
      rewrite props_set_prop by done.
      unfold getProp_of.
      rewrite (props_member_own _ _ _ (props_set_prop n "html" k v Hhp)).
      simpl. unfold member_plain, JsObj.hasOwnProperty.
      rewrite !JsObjFacts.get_write_ne by done.
      destruct (_props n !! "html") as [o|] eqn:Ho; simpl.
      * rewrite (props_member_own _ _ _ Ho). done.
      * done.
    + rewrite props_set_prop_ne by done.
      destruct (_props n !! "html") as [o|] eqn:Ho; [|done].
      assert (getProp_of (set_prop namespace k v n) "html" "tag"
              = getProp_of n "html" "tag") as ->; [|done].
      unfold getProp_of. rewrite (props_member_own _ _ _ Ho).
      by rewrite (props_member_own (set_prop namespace k v n) "html" o)
        by (by rewrite props_set_prop_ne).
  - intros rules. rewrite !css_step_eq, !bool_decide_true by done.
    by rewrite props_set_prop_ne.
  - unfold class_of. pose proof (set_prop_classification namespace k v n) as Hc.
    unfold classification in Hc. injection Hc as _ -> -> _ ->. done.
Qed.

End RenderingFrame.

(** X9: on a node all of whose mixed nodes are nodes, what the seven
    derived computations return can only be changed by [setProp] under
    the namespace [css] or at [("html", "tag")], by [setProp] that puts
    the name [hasOwnProperty] where rendering calls the method of that
    name, and by [addMixin] or [addChild] on a node that holds the array
    of mixins of [this] in that place.  Every other call, on whatever
    receiver and with whatever arguments, leaves the results as they
    were: children and directives are never read, other properties are
    never read, and the mixins of a mixin are never followed. *)
Theorem X9_rendering_frame `{Host} (this : ref) (c : call) (h : heap) :
  well_mixed h this →
  may_change_rendering h this c = false →
  rendering this (perform c h).2 = rendering this h.
Proof.
  intros Hwm Hc.
  destruct (reads c) eqn:Hreads; [by rewrite perform_reads|].
  pose proof Hwm as [ns Hns]%well_mixed_mixed.
  pose proof Hns as (n & nms & _ & Hn & _)%mixed_inv.
  destruct c; try done; unfold perform.
  - unfold mbind, M_bind. destruct name0 as [|a s].
    { by rewrite run_constructor_empty. }
    rewrite run_constructor. simpl.
    eapply rendering_same_mixed; [done|].
    by eapply mixed_grow.
  - unfold mbind, M_bind, new_array. simpl.
    eapply rendering_same_mixed; [done|].
    by apply (mixed_grow h _ this ns [] [items]); [simpl; rewrite app_nil_r| |].
  - rewrite run_addChild. destruct (h !! this0) as [R|] eqn:HR; [|done].
    destruct (arrays h !! _content R) as [items|]; [|done]. simpl.
    simpl in Hc. unfold pushes_into_mixins in Hc. rewrite Hn, HR in Hc.
    apply bool_decide_eq_false in Hc.
    eapply rendering_same_mixed; [done|]. by rewrite (mixed_set_array _ _ n).
  - rewrite run_setChilds. destruct (h !! this0) as [R|] eqn:HR; [|done]. simpl.
    apply (rendering_set_node _ _ _ R); [done..|]. by apply same_render_fields.
  - rewrite run_addMixin. destruct (h !! this0) as [R|] eqn:HR; [|done].
    destruct (arrays h !! _mixins R) as [items|]; [|done]. simpl.
    simpl in Hc. unfold pushes_into_mixins in Hc. rewrite Hn, HR in Hc.
    apply bool_decide_eq_false in Hc.
    eapply rendering_same_mixed; [done|]. by rewrite (mixed_set_array _ _ n).
  - rewrite run_addDirective. destruct (h !! this0) as [R|] eqn:HR; [|done]. simpl.
    apply (rendering_set_node _ _ _ R); [done..|]. by apply same_render_fields.
  - rewrite run_setProp. destruct (h !! this0) as [R|] eqn:HR; [|done].
    destruct (props_hasOwnProperty R namespace) as [b|] eqn:Hb; [|done]. simpl.
    apply props_hasOwnProperty_Return in Hb as [Hu _].
    simpl in Hc. apply bool_decide_eq_false in Hc.
    apply (rendering_set_node _ _ _ R); [done|done|apply set_prop_mixins|].
    apply same_render_set_prop; [done|..].
    + intros ->. apply Hc. by left.
    + intros ->. apply Hc. by right; left.
    + intros ->. split; intros ->; apply Hc; right; right; left; split; auto.
    + intros -> ->. apply Hc. by right; right; right.
Qed.

(** ** Construction of a node *)

(** X1: [new CombineNode(name)] throws a [TypeError] on the empty name
    and then creates nothing.  On any other name it returns a node that
    was no node before, with two new and empty arrays for its children
    and its mixins, and leaves every existing node and array as it was.
    The new node has no property namespace and no directive, so that
    [getPropNS] and [getDirective] find what an empty object inherits;
    it is the only entry of its mixed-node sequence and renders the tag
    [div] and no css rule.  What the existing well-mixed nodes render is
    unchanged. *)
Theorem X1_constructor_makes_an_empty_node `{Host} (nm : string) (h : heap) :
  (nm = "" → constructor nm h = (Throw TypeError, h))
  ∧ (nm ≠ "" →
     ∃ r h',
       constructor nm h = (Return r, h')
       ∧ h !! r = None
       ∧ (∀ r' n, h !! r' = Some n → h' !! r' = Some n)
       ∧ (∀ a items, arrays h !! a = Some items → arrays h' !! a = Some items)
       ∧ (∃ content mixins,
            getChilds r h' = (Return content, h')
            ∧ getMixines r h' = (Return mixins, h')
            ∧ content ≠ mixins
            ∧ arrays h !! content = None ∧ arrays h !! mixins = None
            ∧ arrays h' !! content = Some [] ∧ arrays h' !! mixins = Some [])
       ∧ hasChilds r h' = (Return false, h')
       ∧ emptyChilds r h' = (Return true, h')
       ∧ getAllMixedNodes r h' = (Return [r], h')
       ∧ getDirectives r h' = (Return ∅, h')
       ∧ (∀ ns, hasPropNS r ns h' = (Return false, h')
                ∧ getPropNS r ns h' = (Return (inherited_member ns), h'))
       ∧ (∀ k, hasDirective r k h' = (Return false, h')
               ∧ getDirective r k h' = (Return (NoHandle (inherited_member k)), h'))
       ∧ getHtmlTag r h' = (Return (Prim (Str "div")), h')
       ∧ getCssMixedRules r h' = (Return "", h')
       ∧ (∀ this, well_mixed h this → rendering this h' = rendering this h)).
Proof.
  split; [by intros ->|].
  intros Hnm. destruct nm as [|c s]; [done|].
  eexists _, _. split; [apply run_constructor|].
  set (n0 := mkNode _ _ _ _ _ _ _ _ _ _).
  set (h' := mkHeap _ _).
  assert (Hr : h' !! length (objects h) = Some n0).
  { unfold h'. apply (lookup_last _ _ []). }
  assert (Ha0 : arrays h' !! length (arrays h) = Some []).
  { unfold h'. simpl. by apply list_lookup_middle. }
  assert (Ha1 : arrays h' !! S (length (arrays h)) = Some []).
  { unfold h'. simpl. rewrite lookup_app_r by lia.
    by replace (S (length (arrays h)) - length (arrays h)) with 1 by lia. }
  assert (Hm : mixed h' (length (objects h)) = Some [n0]).
  { apply (mixed_Some _ _ n0 []); [done|].
    change (_mixins n0) with (S (length (arrays h))).
    by rewrite (spread_array _ _ [] Ha1). }
  split; [by apply lookup_ge_None_2|].
  split.
  { intros r' n Hn. unfold h'. rewrite heap_lookup_objects. simpl.
    by apply lookup_app_l_Some. }
  split.
  { intros a items Ha. unfold h'. simpl. by apply lookup_app_l_Some. }
  rewrite run_getChilds, run_getMixines, run_hasChilds, run_emptyChilds,
    run_getAllMixedNodes, run_getDirectives, run_getHtmlTag, run_getCssMixedRules,
    Hr, Hm. simpl _content. simpl _mixins. rewrite Ha0.
  unfold mixed_refs. simpl _mixins. rewrite (spread_array _ _ [] Ha1).
  split.
  { eexists _, _. do 2 (split; [done|]). split; [lia|].
    split; [by apply lookup_ge_None_2|]. split; [apply lookup_ge_None_2; lia|].
    done. }
  do 4 (split; [done|]).
  split.
  { intros ns. by rewrite run_hasPropNS, run_getPropNS, Hr. }
  split.
  { intros k. by rewrite run_hasDirective, run_getDirective, Hr. }
  do 2 (split; [done|]).
  intros this [ns Hns]%well_mixed_mixed.
  eapply rendering_same_mixed; [done|]. by eapply mixed_grow.
Qed.

(** * Witnesses and counterexamples *)

Lemma button_store_reachable : @reachable Ascii_host.host button_store.
Proof.
  exists [New "Button"; SetProp 0 "html" "tag" (Str "button");
          SetProp 0 "css" "backgroundColor" (Str "red"); New "disabled";
          AddMixin 0 1].
  vm_compute. reflexivity.
Qed.

Lemma button_store_well_mixed : well_mixed button_store 0.
Proof.
  exists [0; 1]. split; [vm_compute; reflexivity|].
  apply Forall_cons_2; [by eexists|].
  apply Forall_cons_2; [by eexists|]. apply Forall_nil_2.
Qed.

(** C1 on the ASCII host, from the empty store. *)
Lemma C1_witness :
  ∃ button h,
    @button_scenario Ascii_host.host ∅ = (Return button, h)
    ∧ @_getAttributesString Ascii_host.host button h
      = (Return ("class=" +:+ dquote +:+ "button __disabled" +:+ dquote +:+ " "
                 +:+ "styles=" +:+ dquote +:+ "background-color:red" +:+ dquote),
         h).
Proof.
  apply (@C1_css_rules_are_emitted_under_styles Ascii_host.host ∅);
    vm_compute; congruence.
Defined.



(** C3 on the ASCII host, from the empty store. *)
Lemma C3_witness :
  ∃ button h,
    @button_scenario Ascii_host.host ∅ = (Return button, h)
    ∧ @getHtmlTag Ascii_host.host button h = (Return (Prim (Str "button")), h)
    ∧ @getHtmlMixedClass Ascii_host.host button h = (Return "button __disabled", h)
    ∧ @getCssMixedRules Ascii_host.host button h = (Return "background-color:red", h).
Proof.
  apply (@C3_button_scenario Ascii_host.host ∅); vm_compute; congruence.
Defined.

(** C4 at the name [Button]. *)
Lemma C4_witness :
  ∃ r n h',
    @constructor Ascii_host.host "Button" ∅ = (Return r, h')
    ∧ h' !! r = Some n
    ∧ name n = "Button"
    ∧ xorb (isBlock n) (isElement n) = true
    ∧ (isBlock n = true → blockName n = "Button" ∧ elementName n = "")
    ∧ (isElement n = true → elementName n = "Button" ∧ blockName n = "")
    ∧ ∀ cs, has_classification r (classification n) (@after Ascii_host.host cs h').
Proof. apply (@C4_classification_is_fixed_at_construction Ascii_host.host "Button" ∅). done. Defined.



(** C6 at a node mixed into itself. *)
Lemma C6_witness :
  @getCssMixedRules Ascii_host.host 0 (repeat_store true)
  = (Return "color:red", repeat_store true)
  ∧ @getCssMixedRules Ascii_host.host 0 (set_array 1 [] (repeat_store true))
    = (Return "color:red", set_array 1 [] (repeat_store true))
  ∧ set_array 1 [] (repeat_store true) = repeat_store false.
Proof.
  split; [vm_compute; reflexivity|]. split; [|vm_compute; reflexivity].
  apply (@C6_css_merge_idempotent_unless_overridden Ascii_host.host
           (repeat_store true) 0 0 1 [] [] "color:red").
  - vm_compute. reflexivity.
  - vm_compute. reflexivity.
  - right. exists [("color", Str "red")], [("color", Str "red")].
    split; [split; vm_compute; reflexivity|].
    split; [split; vm_compute; reflexivity|]. done.
  - apply Forall_nil_2.
  - vm_compute. reflexivity.
Defined.

(** C6 as stated fails: node [a] is red, its mixin [b] is blue, and [a]
    mixed in again after [b] (a mixin with exactly the css properties of
    the node) turns the rule red again, while without that mixin the rule
    is blue. *)
Lemma C6_counterexample :
  (getAllMixedNodes 0 (override_store true)).1 = Return [0; 1; 0]
  ∧ (getAllMixedNodes 0 (override_store false)).1 = Return [0; 1]
  ∧ objects (override_store true) = objects (override_store false)
  ∧ (@mixedRules Ascii_host.host 0 (override_store true)).1
    = Return [("color", Str "red")]
  ∧ (@mixedRules Ascii_host.host 0 (override_store false)).1
    = Return [("color", Str "blue")]
  ∧ (@getCssMixedRules Ascii_host.host 0 (override_store true)).1 = Return "color:red"
  ∧ (@getCssMixedRules Ascii_host.host 0 (override_store false)).1 = Return "color:blue".
Proof. repeat split; vm_compute; reflexivity. Qed.

(** C7 at the two nodes of the button scenario. *)
Lemma C7_witness :
  @getHtmlClass Ascii_host.host 0 button_store = (Return "button", button_store)
  ∧ @getHtmlClass Ascii_host.host 1 button_store = (Return "__disabled", button_store).
Proof.
  split.
  - edestruct (@C7_getHtmlClass_block_or_element Ascii_host.host button_store 0)
      as (Hblock & _);
      [reflexivity | exact button_store_reachable | vm_compute; reflexivity |].
    apply Hblock. reflexivity.
  - edestruct (@C7_getHtmlClass_block_or_element Ascii_host.host button_store 1)
      as (_ & Helement & _);
      [reflexivity | exact button_store_reachable | vm_compute; reflexivity |].
    apply Helement. reflexivity.
Defined.



(** C9 at the button. *)
Lemma C9_witness :
  @getHtmlTagStart Ascii_host.host 0 button_store
  = (Return ("<" +:+ "button" +:+ " "
             +:+ ("class=" +:+ dquote +:+ "button __disabled" +:+ dquote +:+ " "
                  +:+ "styles=" +:+ dquote +:+ "background-color:red" +:+ dquote)
             +:+ ">"),
     button_store)
  ∧ @getHtmlTagEnd Ascii_host.host 0 button_store
    = (Return ("</" +:+ "button" +:+ ">"), button_store).
Proof.
  destruct (@C9_tag_start_and_end Ascii_host.host button_store 0) as (Hboth & _).
  destruct (Hboth (Prim (Str "button"))
              ("class=" +:+ dquote +:+ "button __disabled" +:+ dquote +:+ " "
               +:+ "styles=" +:+ dquote +:+ "background-color:red" +:+ dquote))
    as (v & Hv & Hstart & _ & Hend).
  - vm_compute. reflexivity.
  - vm_compute. reflexivity.
  - injection Hv as <-. split; [exact Hstart | exact Hend].
Defined.

(** C9 as stated fails: on a node with an [html] property named
    [hasOwnProperty], whose mixed nodes are nodes, neither method
    returns a tag. *)
Lemma C9_counterexample :
  (@shadowed_tag_scenario Ascii_host.host ∅).1 = Return 0
  ∧ (getAllMixedNodes 0 shadowed_tag_store).1 = Return [0; 1]
  ∧ (@getHtmlClass Ascii_host.host 1 shadowed_tag_store).1 = Return "__b"
  ∧ (@getHtmlTagStart Ascii_host.host 0 shadowed_tag_store).1 = Throw TypeError
  ∧ (@getHtmlTagEnd Ascii_host.host 0 shadowed_tag_store).1 = Throw TypeError.
Proof. repeat split; vm_compute; reflexivity. Qed.

(** X2 at the button, which has no child yet. *)
Lemma X2_witness :
  ∃ h', addChild 0 1 button_store = (Return (), h')
        ∧ arrays h' !! 0 = Some [1]
        ∧ hasChilds 0 h' = (Return true, h').
Proof.
  destruct (@X2_addChild_appends Ascii_host.host button_store 0 1 0) as (Hadd & _).
  - vm_compute. reflexivity.
  - destruct (Hadd []) as (h' & Hh' & _ & Harr & Hhas & _).
    + vm_compute. reflexivity.
    + exists h'. split; [exact Hh'|]. split; [exact Harr | exact Hhas].
Defined.

(** X3 at the button, which takes its array of mixins as its array of
    children. *)
Lemma X3_witness :
  ∃ h', setChilds 0 1 button_store = (Return (), h')
        ∧ getChilds 0 h' = (Return 1, h')
        ∧ emptyChilds 0 h' = (Return false, h').
Proof.
  destruct (@X3_setChilds_replaces Ascii_host.host button_store 0 1)
    as (h' & Hset & Hget & Hempty & _).
  - vm_compute. by eexists.
  - exists h'. split; [exact Hset|]. split; [exact Hget|].
    destruct (Hempty [1]) as [He _]; [vm_compute; reflexivity | exact He].
Defined.

(** X4 at the button, with the element [disabled] mixed in a second
    time. *)
Lemma X4_witness :
  ∃ h', addMixin 0 1 button_store = (Return (), h')
        ∧ getAllMixedNodes 0 h' = (Return [0; 1; 1], h')
        ∧ @getHtmlMixedClass Ascii_host.host 0 h'
          = (Return "button __disabled __disabled", h').
Proof.
  destruct (@X4_addMixin_appends Ascii_host.host button_store 0 1 1) as (Hadd & _).
  - vm_compute. reflexivity.
  - destruct (Hadd [1]) as (h' & Hh' & _ & _ & _ & Hall & Hclass & _).
    + vm_compute. reflexivity.
    + exists h'. split; [exact Hh'|]. split; [exact Hall|].
      apply (Hclass "button __disabled" "__disabled"); vm_compute; reflexivity.
Defined.

(** X5 at the button. *)
Lemma X5_witness :
  ∃ h', addDirective 0 "if" 7 button_store = (Return (), h')
        ∧ @getDirective Ascii_host.host 0 "if" h' = (Return (Handle 7), h')
        ∧ hasDirective 0 "if" h' = (Return true, h').
Proof.
  destruct (@X5_addDirective_round_trip Ascii_host.host button_store 0 "if" 7)
    as (h' & Hadd & _ & Hget & Hhas & _).
  - vm_compute. by eexists.
  - exists h'. split; [exact Hadd|]. split; [by apply Hget|].
    apply (Hhas ltac:(done) ltac:(done) false). vm_compute. reflexivity.
Defined.

(** X6 at the button, whose colour is set again. *)
Lemma X6_witness :
  ∃ h', @setProp Ascii_host.host 0 "css" "backgroundColor" (Str "blue") button_store
        = (Return (), h')
        ∧ @getProp Ascii_host.host 0 "css" "backgroundColor" h'
          = (Return (Prim (Str "blue")), h')
        ∧ (@getPropNS Ascii_host.host 0 "html" h').1
          = (@getPropNS Ascii_host.host 0 "html" button_store).1.
Proof.
  destruct (@X6_setProp_overwrites_and_frames Ascii_host.host button_store 0
              "css" "backgroundColor" (Str "blue")) as (_ & Hset).
  destruct (Hset true) as (h' & Hh' & _ & Hget & _ & _ & _ & Hframe & _).
  - vm_compute. reflexivity.
  - exists h'. split; [exact Hh'|]. split; [by apply Hget|]. by apply Hframe.
Defined.

(** X8 at the button, where both values are non-empty. *)
Lemma X8_witness :
  @_getAttributesString Ascii_host.host 0 button_store
  = (Return (("class=" +:+ dquote +:+ "button __disabled" +:+ dquote) +:+ " "
             +:+ ("styles=" +:+ dquote +:+ "background-color:red" +:+ dquote)),
     button_store).
Proof.
  destruct (@X8_attribute_string_omits_empty_values Ascii_host.host button_store 0
              "button __disabled" "background-color:red") as (Hboth & _).
  - vm_compute. reflexivity.
  - vm_compute. reflexivity.
  - apply Hboth; done.
Defined.

(** X9 at the button: a child, a directive, a property outside [css] and
    [("html", "tag")], a mixin added to another node, a new node. *)
Lemma X9_witness :
  @rendering Ascii_host.host 0 (@perform Ascii_host.host (AddChild 0 1) button_store).2
  = @rendering Ascii_host.host 0 button_store
  ∧ @rendering Ascii_host.host 0
      (@perform Ascii_host.host (AddDirective 1 "if" 7) button_store).2
    = @rendering Ascii_host.host 0 button_store
  ∧ @rendering Ascii_host.host 0
      (@perform Ascii_host.host (SetProp 1 "html" "id" (Str "x")) button_store).2
    = @rendering Ascii_host.host 0 button_store
  ∧ @rendering Ascii_host.host 0
      (@perform Ascii_host.host (AddMixin 1 0) button_store).2
    = @rendering Ascii_host.host 0 button_store
  ∧ @rendering Ascii_host.host 0
      (@perform Ascii_host.host (New "other") button_store).2
    = @rendering Ascii_host.host 0 button_store.
Proof.
  split; [|split; [|split; [|split]]].
  - apply (@X9_rendering_frame Ascii_host.host 0 (AddChild 0 1) button_store
             button_store_well_mixed).
    vm_compute. reflexivity.
  - apply (@X9_rendering_frame Ascii_host.host 0 (AddDirective 1 "if" 7) button_store
             button_store_well_mixed).
    reflexivity.
  - apply (@X9_rendering_frame Ascii_host.host 0 (SetProp 1 "html" "id" (Str "x"))
             button_store button_store_well_mixed).
    vm_compute. reflexivity.
  - apply (@X9_rendering_frame Ascii_host.host 0 (AddMixin 1 0) button_store
             button_store_well_mixed).
    vm_compute. reflexivity.
  - apply (@X9_rendering_frame Ascii_host.host 0 (New "other") button_store
             button_store_well_mixed).
    reflexivity.
Defined.

(** X10 at nodes [a], [b], [c] that all set the colour. *)
Lemma X10_witness :
  NoDup (JsObj.keys [("color", Str "c")])
  ∧ @getCssMixedRules Ascii_host.host 0 (priority_store ["a"; "b"; "c"])
    = (Return "color:c", priority_store ["a"; "b"; "c"]).
Proof.
  destruct (@X10_css_rules_one_per_key_last_writer Ascii_host.host
              (priority_store ["a"; "b"; "c"]) 0 [0; 1; 2] [("color", Str "c")])
    as (Hcss & Hnodup & _).
  - vm_compute. reflexivity.
  - vm_compute. reflexivity.
  - split; [exact Hnodup | exact Hcss].
Defined.

(** X11 at the button, whose colour is set again. *)
Lemma X11_witness :
  ∃ rules',
    @mixedRules Ascii_host.host 0
      (@setProp Ascii_host.host 0 "css" "backgroundColor" (Str "blue") button_store).2
    = (Return rules',
       (@setProp Ascii_host.host 0 "css" "backgroundColor" (Str "blue") button_store).2)
    ∧ JsObj.keys rules' = ["backgroundColor"].
Proof.
  destruct (@X11_css_overwrite_keeps_rule_order Ascii_host.host button_store 0 0
              "backgroundColor" (Str "red") (Str "blue") [("backgroundColor", Str "red")])
    as (rules' & Hrules & Hkeys & _).
  - split; vm_compute; reflexivity.
  - vm_compute. reflexivity.
  - exists rules'. split; [exact Hrules | exact Hkeys].
Defined.

(** X12 at the button: the namespace [html] exists and holds no [id]. *)
Lemma X12_witness :
  @getProp Ascii_host.host 0 "html" "id" button_store
  = (Return (Prim Undefined), button_store).
Proof.
  destruct (@X12_getProp_missing_name_is_undefined Ascii_host.host button_store 0
              "html" "id") as (Hplain & _).
  destruct (Hplain [("tag", Str "button")]) as (_ & Hmissing & _).
  - vm_compute. reflexivity.
  - apply Hmissing; [reflexivity | done | reflexivity].
Defined.
